(** * Server actions of the invoices dashboard (src/app/lib/actions.ts)

    A shallow embedding of the server-side mutation pipeline: the raw form
    entries, the zod schemas that validate them, the statements handed to
    the [sql] tag, the cache invalidation and redirect signals, and the six
    coordinator operations plus [authenticate].

    JavaScript runtime behaviour the actions rely on (number coercion,
    truthiness, [>], IEEE-754 doubles, [Date.prototype.toISOString],
    [String.prototype.split]) is written out in the first modules; doubles
    are the binary64 instance of the kernel's [SpecFloat] model. *)

From Stdlib Require Import ZArith Lia String Ascii List DecimalString DecimalN SpecFloat.
From stdpp Require Import base strings gmap list.
Import ListNotations.

Local Open Scope Z_scope.
Local Open Scope string_scope.

(* ===================================================================== *)
(** ** IEEE-754 binary64, the JavaScript Number type                      *)
(* ===================================================================== *)

Module Number.

Definition prec : Z := 53.
Definition emax : Z := 1024.

Abbreviation number := spec_float.

Definition NaN : number := S754_nan.
Definition pos_zero : number := S754_zero false.
Definition Infinity : number := S754_infinity false.

(** The double nearest to an integer (numeric literals such as [100]). *)
Definition of_Z (z : Z) : number := binary_normalize prec emax z 0 false.

(** [x * y], [x < y], [x <= y] on doubles. *)
Definition mul (x y : number) : number := SFmul prec emax x y.
Definition ltb (x y : number) : bool := SFltb x y.
Definition leb (x y : number) : bool := SFleb x y.

Definition isNaN (x : number) : bool :=
  match x with S754_nan => true | _ => false end.

(** The double nearest to [(-1)^s * m * 10^e10], round-to-nearest-even:
    the mathematical value of a decimal literal. *)
Definition of_decimal (s : bool) (m : N) (e10 : Z) : number :=
  match m with
  | N0 => S754_zero s
  | Npos p =>
      match e10 with
      | Zneg k =>
          let '(q, e, l) :=
            SFdiv_core_binary prec emax (Zpos p) 0 (Zpos (10 ^ k)) 0 in
          binary_round_aux prec emax s q e l
      | _ => binary_round prec emax s (p * Z.to_pos (10 ^ e10)) 0
      end
  end.

End Number.

Export Number(number).

(* ===================================================================== *)
(** ** JavaScript values and the coercions the actions use                *)
(* ===================================================================== *)

Module JS.

(** The values that reach the actions: form entries ([string], [File] or
    [null]) and the cells of a query result row. Strings are UTF-8 text.
    [Obj C] is an object that inherits [Object.prototype.toString] and
    [valueOf], as a [File] does: its primitive value is the text
    ["[object C]"]. Arrays, dates and other objects with a [toString] of
    their own are not among the values modelled. *)
Inductive value :=
| undefined
| null
| Bool (b : bool)
| Num (x : number)
| Str (s : string)
| Obj (class : string).     (* e.g. [Obj "File"] *)

(** *** StringToNumber (ECMA-262, StringNumericLiteral) *)

(** The WhiteSpace and LineTerminator code points of one byte:
    U+0009..U+000D and U+0020. *)
Definition is_white (a : ascii) : bool :=
  let n := N_of_ascii a in
  ((9 <=? n) && (n <=? 13) || (n =? 32))%N.

(** The number of bytes of the WhiteSpace or LineTerminator code point the
    text starts with, [0] if it starts with none. Beyond the one-byte ones
    these are U+00A0 (C2 A0), U+1680 (E1 9A 80), U+2000..U+200A
    (E2 80 80..8A), U+2028, U+2029 (E2 80 A8, A9), U+202F (E2 80 AF),
    U+205F (E2 81 9F), U+3000 (E3 80 80) and U+FEFF (EF BB BF). *)
Definition white_length (s : string) : nat :=
  match s with
  | String a r =>
      if is_white a then 1%nat
      else
        let n := N_of_ascii a in
        match r with
        | String b r1 =>
            let m := N_of_ascii b in
            if ((n =? 194) && (m =? 160))%N then 2%nat
            else
              match r1 with
              | String c _ =>
                  let k := N_of_ascii c in
                  if ((n =? 225) && (m =? 154) && (k =? 128))%N then 3%nat
                  else if ((n =? 226) && (m =? 128)
                           && ((128 <=? k) && (k <=? 138)
                               || (k =? 168) || (k =? 169) || (k =? 175)))%N then 3%nat
                  else if ((n =? 226) && (m =? 129) && (k =? 159))%N then 3%nat
                  else if ((n =? 227) && (m =? 128) && (k =? 128))%N then 3%nat
                  else if ((n =? 239) && (m =? 187) && (k =? 191))%N then 3%nat
                  else 0%nat
              | EmptyString => 0%nat
              end
        | EmptyString => 0%nat
        end
  | EmptyString => 0%nat
  end.

(** [trim_start] drops the white-space code points the text starts with;
    [skip] counts the bytes of the current one still to drop. *)
Fixpoint drop_white (skip : nat) (s : string) {struct s} : string :=
  match s with
  | String _ r =>
      match skip with
      | S k => drop_white k r
      | O => match white_length s with
             | S k => drop_white k r
             | O => s
             end
      end
  | EmptyString => EmptyString
  end.

Definition trim_start (s : string) : string := drop_white 0 s.

(** The text consists of white-space code points only. *)
Fixpoint only_white (skip : nat) (s : string) {struct s} : bool :=
  match s with
  | String _ r =>
      match skip with
      | S k => only_white k r
      | O => match white_length s with
             | S k => only_white k r
             | O => false
             end
      end
  | EmptyString => true
  end.

Fixpoint trim_end (s : string) : string :=
  match s with
  | String a r => if only_white 0 s then EmptyString else String a (trim_end r)
  | EmptyString => EmptyString
  end.

Definition trim (s : string) : string := trim_end (trim_start s).

(** Value of a digit in the given radix, if it is one. *)
Definition digit_of (radix : N) (a : ascii) : option N :=
  let n := N_of_ascii a in
  let d := (if (48 <=? n) && (n <=? 57) then Some (n - 48)
            else if (97 <=? n) && (n <=? 102) then Some (n - 87)
            else if (65 <=? n) && (n <=? 70) then Some (n - 55)
            else None)%N in
  match d with
  | Some v => if (v <? radix)%N then Some v else None
  | None => None
  end.

(** Reads the longest run of digits: accumulated value, number of digits
    read, and the rest of the text. *)
Fixpoint read_digits (radix : N) (s : string) (acc cnt : N) : N * N * string :=
  match s with
  | String a r =>
      match digit_of radix a with
      | Some d => read_digits radix r (radix * acc + d)%N (cnt + 1)%N
      | None => (acc, cnt, s)
      end
  | EmptyString => (acc, cnt, s)
  end.

(** ExponentPart_opt followed by the end of the text. *)
Definition exponent_part (s : string) : option Z :=
  match s with
  | EmptyString => Some 0
  | String c r =>
      if (c =? "e")%char || (c =? "E")%char then
        let '(neg, r) :=
          match r with
          | String "+" r' => (false, r')
          | String "-" r' => (true, r')
          | _ => (false, r)
          end in
        match read_digits 10 r 0 0 with
        | (_, 0%N, _) => None
        | (v, _, EmptyString) => Some (if neg then - Z.of_N v else Z.of_N v)
        | _ => None
        end
      else None
  end.

(** StrUnsignedDecimalLiteral with the sign already consumed. *)
Definition unsigned_decimal (neg : bool) (s : string) : number :=
  if (s =? "Infinity")%string then S754_infinity neg
  else
    let '(m1, n1, r1) := read_digits 10 s 0 0 in
    let '(m, n2, r2) :=
      match r1 with
      | String "." r => read_digits 10 r m1 0
      | _ => (m1, 0%N, r1)
      end in
    if ((n1 =? 0) && (n2 =? 0))%N then Number.NaN
    else match exponent_part r2 with
         | Some e => Number.of_decimal neg m (e - Z.of_N n2)
         | None => Number.NaN
         end.

(** NonDecimalIntegerLiteral: [0x], [0o], [0b] and their digits. *)
Definition non_decimal (radix : N) (s : string) : number :=
  match read_digits radix s 0 0 with
  | (_, 0%N, _) => Number.NaN
  | (v, _, EmptyString) => Number.of_Z (Z.of_N v)
  | _ => Number.NaN
  end.

Definition StringToNumber (s : string) : number :=
  match trim s with
  | EmptyString => Number.pos_zero
  | String "0" (String c r) as t =>
      if (c =? "x")%char || (c =? "X")%char then non_decimal 16 r
      else if (c =? "o")%char || (c =? "O")%char then non_decimal 8 r
      else if (c =? "b")%char || (c =? "B")%char then non_decimal 2 r
      else unsigned_decimal false t
  | String "+" r => unsigned_decimal false r
  | String "-" r => unsigned_decimal true r
  | t => unsigned_decimal false t
  end.

(** *** ToNumber, ToBoolean, [||], [>] *)

Definition ToNumber (v : value) : number :=
  match v with
  | undefined => Number.NaN
  | null => Number.pos_zero
  | Bool b => if b then Number.of_Z 1 else Number.pos_zero
  | Num x => x
  | Str s => StringToNumber s
  | Obj _ => Number.NaN      (* its primitive "[object C]" is no numeric literal *)
  end.

Definition ToBoolean (v : value) : bool :=
  match v with
  | undefined | null => false
  | Bool b => b
  | Num x => match x with S754_zero _ | S754_nan => false | _ => true end
  | Str s => negb (s =? "")%string
  | Obj _ => true
  end.

(** [a || b] *)
Definition or (a b : value) : value := if ToBoolean a then a else b.

(** [a > n] for a number [n]: both sides go through ToNumber, and a NaN
    on either side makes the comparison false. *)
Definition gt_num (a : value) (n : number) : bool := Number.ltb n (ToNumber a).

(** [s.split(sep)] for a one-character separator: never an empty array. *)
Fixpoint split (sep : ascii) (s : string) : list string :=
  match s with
  | EmptyString => [EmptyString]
  | String a r =>
      if (a =? sep)%char then EmptyString :: split sep r
      else match split sep r with
           | piece :: pieces => String a piece :: pieces
           | [] => [String a EmptyString]
           end
  end.

(** [arr[0]] on an array of strings. *)
Definition first (arr : list string) : value :=
  match arr with
  | x :: _ => Str x
  | [] => undefined
  end.

(** [hay.includes(needle)] *)
Definition includes (needle hay : string) : bool :=
  (fix go (h : string) : bool :=
     String.prefix needle h ||
     match h with
     | String _ r => go r
     | EmptyString => false
     end) hay.

End JS.

Import JS.

(* ===================================================================== *)
(** ** [new Date().toISOString()]                                         *)
(* ===================================================================== *)

Module Date.

(** A time value broken down into its UTC fields. *)
Record t := mk {
  year : Z; month : N; day : N;          (* month 1-12, day 1-31 *)
  hours : N; minutes : N; seconds : N; ms : N
}.

Definition digit_char (d : N) : ascii := ascii_of_N (48 + d mod 10)%N.

(** [n] written with exactly [width] decimal digits (padStart with "0"). *)
Fixpoint pad (width : nat) (n : N) : string :=
  match width with
  | O => EmptyString
  | S w => pad w (n / 10) ++ String (digit_char n) EmptyString
  end.

(** Years 0..9999 take four digits, all others a sign and six. *)
Definition year_string (y : Z) : string :=
  if ((0 <=? y) && (y <=? 9999))%Z then pad 4 (Z.to_N y)
  else (if (y <? 0)%Z then "-" else "+") ++ pad 6 (Z.abs_N y).

(** The calendar day in ISO form, [YYYY-MM-DD]. *)
Definition iso_day (d : t) : string :=
  year_string (year d) ++ "-" ++ pad 2 (month d) ++ "-" ++ pad 2 (day d).

Definition toISOString (d : t) : string :=
  iso_day d ++ "T" ++ pad 2 (hours d) ++ ":" ++ pad 2 (minutes d) ++ ":"
    ++ pad 2 (seconds d) ++ "." ++ pad 3 (ms d) ++ "Z".

End Date.

(* ===================================================================== *)
(** ** The part of zod the schemas use                                    *)
(* ===================================================================== *)

Module Zod.

Inductive ZodParsedType :=
| pt_string | pt_nan | pt_number | pt_boolean | pt_undefined | pt_null | pt_object.

(** util.getParsedType *)
Definition getParsedType (v : value) : ZodParsedType :=
  match v with
  | undefined => pt_undefined
  | null => pt_null
  | Bool _ => pt_boolean
  | Num x => if Number.isNaN x then pt_nan else pt_number
  | Str _ => pt_string
  | Obj _ => pt_object
  end.

Definition type_name (t : ZodParsedType) : string :=
  match t with
  | pt_string => "string" | pt_nan => "nan" | pt_number => "number"
  | pt_boolean => "boolean" | pt_undefined => "undefined" | pt_null => "null"
  | pt_object => "object"
  end.

Inductive ZodIssueCode := invalid_type | invalid_enum_value | too_small.

Record ZodIssue := {
  code : ZodIssueCode;
  path : string;                     (* the object key the issue is under *)
  message : string
}.

(** The creation parameters the schemas pass ([invalid_type_error] only). *)
Record RawCreateParams := { invalid_type_error : option string }.
Definition no_params : RawCreateParams := {| invalid_type_error := None |}.

(** A [min] check of a number schema; [.gt(v, {message})] adds one that
    is not inclusive. *)
Record ZodNumberCheck := {
  check_value : number; check_inclusive : bool; check_message : string
}.

Record ZodNumberDef := { coerce : bool; checks : list ZodNumberCheck }.

Inductive ZodType :=
| ZodString (params : RawCreateParams)
| ZodNumber (def : ZodNumberDef)
| ZodEnum (values : list string) (params : RawCreateParams).

(** [z.string(params)], [z.coerce.number()], [.gt], [z.enum]. *)
Definition z_string (params : RawCreateParams) : ZodType := ZodString params.
Definition z_coerce_number : ZodNumberDef := {| coerce := true; checks := [] |}.
Definition gt (v : number) (msg : string) (n : ZodNumberDef) : ZodNumberDef :=
  {| coerce := coerce n;
     checks := (checks n ++ [{| check_value := v; check_inclusive := false;
                                check_message := msg |}])%list |}.
Definition z_enum (values : list string) (params : RawCreateParams) : ZodType :=
  ZodEnum values params.

(** An object schema is its shape, in declaration order. *)
Definition ZodObject := list (string * ZodType).

(** [schema.omit(mask)] *)
Definition omit (mask : list string) (shape : ZodObject) : ZodObject :=
  List.filter (fun kv => negb (bool_decide (fst kv ∈ mask))) shape.

(** util.joinValues: ['a' | 'b'] *)
Fixpoint joinValues (vs : list string) : string :=
  match vs with
  | [] => ""
  | [v] => "'" ++ v ++ "'"
  | v :: rest => "'" ++ v ++ "' | " ++ joinValues rest
  end.

(** The default (English) error map, for the issues raised here. *)
Definition invalid_type_default (expected : string) (received : ZodParsedType) : string :=
  match received with
  | pt_undefined => "Required"
  | _ => "Expected " ++ expected ++ ", received " ++ type_name received
  end.

Definition invalid_enum_default (options : list string) (received : string) : string :=
  "Invalid enum value. Expected " ++ joinValues options ++ ", received '"
    ++ received ++ "'".

(** The error map built from creation parameters (processCreateParams):
    only an [invalid_type] issue on a defined value takes
    [invalid_type_error]. *)
Definition customMap (params : RawCreateParams) (c : ZodIssueCode)
    (data : value) (defaultError : string) : string :=
  match c with
  | invalid_enum_value => defaultError
  | invalid_type =>
      match data with
      | undefined => defaultError
      | _ => default defaultError (invalid_type_error params)
      end
  | too_small => defaultError
  end.

Definition issue (c : ZodIssueCode) (key msg : string) : ZodIssue :=
  {| code := c; path := key; message := msg |}.

(** The issues of one [min] check on a number. *)
Definition run_check (key : string) (x : number) (c : ZodNumberCheck) : list ZodIssue :=
  let tooSmall :=
    if check_inclusive c then Number.ltb x (check_value c)
    else Number.leb x (check_value c) in
  if tooSmall then [issue too_small key (check_message c)] else [].

(** [_parse] of a field schema on the value found under [key]: the issues
    raised and, unless parsing aborted, the output value. *)
Definition parse_field (key : string) (t : ZodType) (data : value)
    : list ZodIssue * option value :=
  match t with
  | ZodString params =>
      match data with
      | Str _ => ([], Some data)
      | _ => ([issue invalid_type key
                (customMap params invalid_type data
                   (invalid_type_default "string" (getParsedType data)))], None)
      end
  | ZodNumber def =>
      let data := if coerce def then Num (ToNumber data) else data in
      match data with
      | Num x =>
          if Number.isNaN x then
            ([issue invalid_type key
                (invalid_type_default "number" (getParsedType data))], None)
          else (flat_map (run_check key x) (checks def), Some data)
      | _ => ([issue invalid_type key
                 (invalid_type_default "number" (getParsedType data))], None)
      end
  | ZodEnum values params =>
      match data with
      | Str s =>
          if bool_decide (s ∈ values) then ([], Some data)
          else ([issue invalid_enum_value key
                   (customMap params invalid_enum_value data
                      (invalid_enum_default values s))], None)
      | _ => ([issue invalid_type key
                 (customMap params invalid_type data
                    (invalid_type_default (joinValues values) (getParsedType data)))],
              None)
      end
  end.

(** [_parse] of an object schema on an object: every key of the shape is
    parsed in order, issues accumulate, unknown keys are stripped. *)
Fixpoint parse_object (shape : ZodObject) (input : gmap string value)
    : list ZodIssue * gmap string value :=
  match shape with
  | [] => ([], ∅)
  | (key, t) :: rest =>
      let '(issues, out) := parse_field key t (default undefined (input !! key)) in
      let '(issues', data) := parse_object rest input in
      ((issues ++ issues')%list,
       match out with Some v => <[key := v]> data | None => data end)
  end.

Inductive SafeParseReturnType :=
| success (data : gmap string value)
| failure (error : list ZodIssue).

(** [schema.safeParse(input)]: a result object in both cases. *)
Definition safeParse (shape : ZodObject) (input : gmap string value)
    : SafeParseReturnType :=
  match parse_object shape input with
  | ([], data) => success data
  | (issues, _) => failure issues
  end.

(** [error.flatten().fieldErrors]: messages grouped by key, in issue order. *)
Definition fieldErrors (issues : list ZodIssue) : gmap string (list string) :=
  fold_left
    (fun acc sub => <[path sub := (default [] (acc !! path sub) ++ [message sub])%list]> acc)
    issues ∅.

End Zod.

(* ===================================================================== *)
(** ** The relational store behind the [sql] tag                          *)
(* ===================================================================== *)

Module Store.

(** Rows keep the values that were bound as statement parameters; the
    identifier of a row is assigned by the store. *)
Record invoice := {
  inv_id : string; inv_customer_id : value; inv_amount : value;
  inv_status : value; inv_date : value
}.

Record customer := {
  cus_id : string; cus_name : value; cus_email : value; cus_image_url : value
}.

Record database := { invoices : list invoice; customers : list customer }.

(** The seven statements of actions.ts with their bound parameters. *)
Inductive statement :=
| INSERT_invoice (customer_id amount status date : value)
| UPDATE_invoice (customer_id amount status : value) (id : string)
| DELETE_invoice (id : string)
| INSERT_customer (name email image_url : value)
| UPDATE_customer (name email image_url : value) (id : string)
| DELETE_customer (id : string)
| SELECT_pending_count (id : string).

Definition is_write (s : statement) : bool :=
  match s with SELECT_pending_count _ => false | _ => true end.

Definition is_delete (s : statement) : bool :=
  match s with DELETE_invoice _ | DELETE_customer _ => true | _ => false end.

(** A result row: column name to cell. *)
Abbreviation row := (gmap string value).

#[global] Instance number_eq_dec : EqDecision number.
Proof. solve_decision. Defined.

#[global] Instance value_eq_dec : EqDecision value.
Proof. solve_decision. Defined.

(** [WHERE customer_id = id AND status = 'pending'] *)
Definition is_pending_of (id : string) (r : invoice) : bool :=
  bool_decide (inv_customer_id r = Str id) && bool_decide (inv_status r = Str "pending").

Definition pending_count (id : string) (d : database) : N :=
  N.of_nat (length (List.filter (is_pending_of id) (invoices d))).

(** A bigint cell arrives as its decimal text. *)
Definition decimal (n : N) : string := NilEmpty.string_of_uint (N.to_uint n).

Definition set_invoice (customer_id amount status : value) (id : string)
    (r : invoice) : invoice :=
  if (inv_id r =? id)%string then
    {| inv_id := inv_id r; inv_customer_id := customer_id; inv_amount := amount;
       inv_status := status; inv_date := inv_date r |}
  else r.

Definition set_customer (name email image_url : value) (id : string)
    (r : customer) : customer :=
  if (cus_id r =? id)%string then
    {| cus_id := cus_id r; cus_name := name; cus_email := email;
       cus_image_url := image_url |}
  else r.

(** What a statement does when the store completes it; [fresh] is the
    identifier the store gives to an inserted row. *)
Definition run (fresh : string) (s : statement) (d : database)
    : database * list row :=
  match s with
  | INSERT_invoice c a st dt =>
      ({| invoices := invoices d ++
            [{| inv_id := fresh; inv_customer_id := c; inv_amount := a;
                inv_status := st; inv_date := dt |}];
          customers := customers d |}, [])
  | UPDATE_invoice c a st id =>
      ({| invoices := map (set_invoice c a st id) (invoices d);
          customers := customers d |}, [])
  | DELETE_invoice id =>
      ({| invoices := List.filter (fun r => negb (inv_id r =? id)%string) (invoices d);
          customers := customers d |}, [])
  | INSERT_customer n e i =>
      ({| invoices := invoices d;
          customers := customers d ++
            [{| cus_id := fresh; cus_name := n; cus_email := e; cus_image_url := i |}] |},
       [])
  | UPDATE_customer n e i id =>
      ({| invoices := invoices d;
          customers := map (set_customer n e i id) (customers d) |}, [])
  | DELETE_customer id =>
      ({| invoices := invoices d;
          customers := List.filter (fun r => negb (cus_id r =? id)%string) (customers d) |},
       [])
  | SELECT_pending_count id =>
      (d, [{[ "count" := Str (decimal (pending_count id d)) ]}])
  end.

(** [SELECT ... WHERE id = ...] read-backs used to observe the store. *)
Definition invoice_by_id (id : string) (d : database) : option invoice :=
  List.find (fun r => (inv_id r =? id)%string) (invoices d).

Definition customer_by_id (id : string) (d : database) : option customer :=
  List.find (fun r => (cus_id r =? id)%string) (customers d).

End Store.

Import Store.

(* ===================================================================== *)
(** ** Completions, the world, and the action monad                       *)
(* ===================================================================== *)

(** What a [catch] clause can receive. [redirect] transfers control by
    throwing a [RedirectError]; [AuthError] is next-auth's error class. *)
Inductive thrown :=
| Error (message : string)
| AuthError (type : string) (message : string)
| RedirectError (url : string)
| NonError (v : value).

(** [error instanceof Error] and [error.message] *)
Definition instanceof_Error (e : thrown) : bool :=
  match e with NonError _ => false | _ => true end.

Definition error_message (e : thrown) : string :=
  match e with
  | Error m | AuthError _ m => m
  | RedirectError _ => "NEXT_REDIRECT"
  | NonError _ => ""
  end.

Inductive completion (A : Type) :=
| Return (a : A)
| Throw (e : thrown).
Arguments Return {A} a.
Arguments Throw {A} e.

(** What a settled [await sql`...`] yields. A rejected statement has no
    effect on the rows. *)
Inductive settled :=
| fulfilled (d : database) (rows : list row)
| rejected (e : thrown).

Definition FormData := list (string * value).

(** [formData.get(name)]: the first entry of that name, or [null]. *)
Fixpoint get (formData : FormData) (name : string) : value :=
  match formData with
  | [] => null
  | (k, v) :: rest => if (k =? name)%string then v else get rest name
  end.

Record world := {
  db : database;                (* the rows *)
  revalidated : list string;    (* paths marked stale, oldest first *)
  issued : list statement;      (* statements handed to [sql], oldest first *)
  now : Date.t                  (* the clock *)
}.

Definition action (A : Type) : Type := world → completion A * world.

#[global] Instance action_ret : MRet action := λ A a w, (Return a, w).

#[global] Instance action_bind : MBind action := λ A B f m w,
  match m w with
  | (Return a, w') => f a w'
  | (Throw e, w') => (Throw e, w')
  end.

(** [try { body } catch (error) { handler }] *)
Definition try_catch {A} (body : action A) (handler : thrown → action A) : action A :=
  λ w, match body w with
       | (Return a, w') => (Return a, w')
       | (Throw e, w') => handler e w'
       end.

Definition revalidatePath (p : string) : action unit :=
  λ w, (Return tt,
        {| db := db w; revalidated := revalidated w ++ [p]; issued := issued w;
           now := now w |}).

Definition redirect {A} (url : string) : action A :=
  λ w, (Throw (RedirectError url), w).

Definition new_Date : action Date.t := λ w, (Return (now w), w).

Record State := {
  errors : option (gmap string (list string));
  message : option string
}.

Definition Statecustomers := State.

(** [{ message: m }] *)
Definition just_message (m : string) : State :=
  {| errors := None; message := Some m |}.

(** [obj.key], [undefined] when the property is absent. *)
Definition prop (obj : gmap string value) (key : string) : value :=
  default undefined (obj !! key).

(** [a * b] *)
Definition times (a b : value) : value := Num (Number.mul (ToNumber a) (ToNumber b)).

(* ===================================================================== *)
(** ** actions.ts                                                         *)
(* ===================================================================== *)

Import Zod(ZodObject, ZodNumber, z_string, z_enum, z_coerce_number, gt, no_params,
  omit, safeParse, success, failure, fieldErrors).

Definition FormSchema : ZodObject := [
  ("id", z_string no_params);
  ("customerId",
     z_string {| Zod.invalid_type_error := Some "Please select a customer." |});
  ("amount",
     ZodNumber (gt (Number.of_Z 0) "Please enter an amount greater than $0."
                  z_coerce_number));
  ("status",
     z_enum ["pending"; "paid"]
       {| Zod.invalid_type_error := Some "Please select an invoice status." |});
  ("date", z_string no_params)
].

Definition FormcustumersSchema : ZodObject := [
  ("id", z_string no_params);
  ("name", z_string no_params);
  ("email", z_string no_params);
  ("image_url", z_string no_params)
].

Definition CreateCustomers : ZodObject := omit ["id"] FormcustumersSchema.

Definition UpdateInvoice : ZodObject := omit ["id"; "date"] FormSchema.
Definition UpdateCustomer : ZodObject := omit ["id"] FormcustumersSchema.
Definition CreateInvoice : ZodObject := omit ["id"; "date"] FormSchema.

(** The object literals handed to [safeParse]. *)
Definition invoice_fields (formData : FormData) : gmap string value :=
  list_to_map [
    ("customerId", get formData "customerId");
    ("amount", get formData "amount");
    ("status", get formData "status")
  ].

Definition customer_fields (formData : FormData) : gmap string value :=
  list_to_map [
    ("name", get formData "name");
    ("email", get formData "email");
    ("image_url", get formData "image_url")
  ].

(** [`${prefix}${error instanceof Error ? error.message : ''}`] *)
Definition database_error (prefix : string) (error : thrown) : State :=
  just_message (prefix ++ (if instanceof_Error error then error_message error else "")).

Section Actions.

(** The database driver and the identity provider are collaborators of the
    actions, not part of them. *)
Variable sql : statement → database → settled.
Variable signIn : string → FormData → action unit.

(** [await sql`...`] *)
Definition sql_call (s : statement) : action (list row) :=
  λ w, match sql s (db w) with
       | fulfilled d rows =>
           (Return rows,
            {| db := d; revalidated := revalidated w; issued := issued w ++ [s];
               now := now w |})
       | rejected e =>
           (Throw e,
            {| db := db w; revalidated := revalidated w; issued := issued w ++ [s];
               now := now w |})
       end.

Definition authenticate (prevState : value) (formData : FormData) : action value :=
  try_catch
    (signIn "credentials" formData;; mret undefined)
    (λ error,
       match error with
       | AuthError type _ =>
           if (type =? "CredentialsSignin")%string then mret (Str "Invalid credentials.")
           else mret (Str "Something went wrong.")
       | _ => λ w, (Throw error, w)
       end).

Definition createInvoice (prevState : State) (formData : FormData) : action State :=
  let validatedFields := safeParse CreateInvoice (invoice_fields formData) in
  match validatedFields with
  | failure error =>
      mret {| errors := Some (fieldErrors error);
              message := Some "Missing Fields. Failed to Create Invoice." |}
  | success data =>
      let customerId := prop data "customerId" in
      let amount := prop data "amount" in
      let status := prop data "status" in
      let amountInCents := times amount (Num (Number.of_Z 100)) in
      d ← new_Date;
      let date := first (split "T" (Date.toISOString d)) in
      caught ← try_catch
        (sql_call (INSERT_invoice customerId amountInCents status date);; mret None)
        (λ error,
           mret (Some (database_error "Database Error: Failed to Create Invoice. " error)));
      match caught with
      | Some result => mret result
      | None =>
          revalidatePath "/dashboard/invoices";;
          redirect "/dashboard/invoices"
      end
  end.

Definition updateInvoice (id : string) (prevState : State) (formData : FormData)
    : action State :=
  let validatedFields := safeParse UpdateInvoice (invoice_fields formData) in
  match validatedFields with
  | failure error =>
      mret {| errors := Some (fieldErrors error);
              message := Some "Missing Fields. Failed to Update Invoice." |}
  | success data =>
      let customerId := prop data "customerId" in
      let amount := prop data "amount" in
      let status := prop data "status" in
      let amountInCents := times amount (Num (Number.of_Z 100)) in
      caught ← try_catch
        (sql_call (UPDATE_invoice customerId amountInCents status id);; mret None)
        (λ error,
           mret (Some (database_error "Database Error: Failed to Update Invoice. " error)));
      match caught with
      | Some result => mret result
      | None =>
          revalidatePath "/dashboard/invoices";;
          redirect "/dashboard/invoices"
      end
  end.

Definition deleteInvoice (id : string) : action State :=
  try_catch
    (sql_call (DELETE_invoice id);;
     revalidatePath "/dashboard/invoices";;
     mret (just_message "Deleted Invoice."))
    (λ error, mret (database_error "Database Error: Failed to Delete Invoice. " error)).

Definition createCustomers (prevState : Statecustomers) (formData : FormData)
    : action Statecustomers :=
  let validatedFields := safeParse CreateCustomers (customer_fields formData) in
  match validatedFields with
  | failure error =>
      mret {| errors := Some (fieldErrors error);
              message := Some "Missing Fields. Failed to Create Customers." |}
  | success data =>
      let name := prop data "name" in
      let email := prop data "email" in
      let image_url := prop data "image_url" in
      caught ← try_catch
        (sql_call (INSERT_customer name email image_url);; mret None)
        (λ error,
           mret (Some (database_error "Database Error: Failed to Create Customers. " error)));
      match caught with
      | Some result => mret result
      | None =>
          revalidatePath "/dashboard/customers";;
          redirect "/dashboard/customers"
      end
  end.

Definition updateCustomers (id : string) (prevState : Statecustomers)
    (formData : FormData) : action Statecustomers :=
  let validatedFields := safeParse UpdateCustomer (customer_fields formData) in
  match validatedFields with
  | failure error =>
      mret {| errors := Some (fieldErrors error);
              message := Some "Missing Fields. Failed to Update customers." |}
  | success data =>
      let name := prop data "name" in
      let email := prop data "email" in
      let image_url := prop data "image_url" in
      caught ← try_catch
        (sql_call (UPDATE_customer name email image_url id);; mret None)
        (λ error,
           mret (Some (database_error "Database Error: Failed to Update customers. " error)));
      match caught with
      | Some result => mret result
      | None =>
          revalidatePath "/dashboard/customers";;
          redirect "/dashboard/customers"
      end
  end.

(** [pendingInvoicesResult.rows[0]?.count || 0] *)
Definition pendingInvoices_of (rows : list row) : value :=
  JS.or (match rows !! 0%nat with
         | Some r => prop r "count"
         | None => undefined
         end)
        (Num (Number.of_Z 0)).

Definition deleteCustomers (id : string) : action State :=
  try_catch
    (rows ← sql_call (SELECT_pending_count id);
     let pendingInvoices := pendingInvoices_of rows in
     if gt_num pendingInvoices (Number.of_Z 0) then
       mret (just_message "no se elimino")
     else
       sql_call (DELETE_customer id);;
       revalidatePath "/dashboard/customers";;
       mret (just_message "Customer deleted successfully."))
    (λ error, mret (just_message "Database Error: Failed to delete customer.")).

End Actions.

(* ===================================================================== *)
(** ** Vocabulary of the properties                                       *)
(* ===================================================================== *)

(** The messages recorded under a field of a returned state, if any. *)
Definition field_error (st : State) (key : string) : option (list string) :=
  fe ← errors st; fe !! key.

(** [s.endsWith(suffix)] *)
Fixpoint ends_with (suffix s : string) : bool :=
  (s =? suffix)%string ||
  match s with
  | String _ r => ends_with suffix r
  | EmptyString => false
  end.

(** [c] occurs in [s]. *)
Fixpoint occurs (c : ascii) (s : string) : bool :=
  match s with
  | String a r => (a =? c)%char || occurs c r
  | EmptyString => false
  end.

(** The store completes statement [s] on rows [d] with its relational
    effect, giving [fresh] to an inserted row. *)
Definition completes (sql : statement → database → settled) (fresh : string)
    (s : statement) (d : database) : Prop :=
  sql s d = fulfilled (fst (run fresh s d)) (snd (run fresh s d)).

(** The result of the count query shows the count [n]: the [count] cell of
    its first row is [n], as the decimal text the driver gives for a bigint
    or as a number. *)
Definition shows_count (rows : list row) (n : N) : Prop :=
  ∃ r rest, rows = r :: rest
            ∧ (r !! "count" = Some (Str (decimal n))
               ∨ r !! "count" = Some (Num (Number.of_Z (Z.of_N n)))).

(** A field of an invoice form that validation must refuse: an amount that
    coerces to a number [<= 0], or a status other than the two allowed. *)
Definition offending (formData : FormData) (key : string) : bool :=
  if (key =? "amount")%string then
    Number.leb (ToNumber (get formData "amount")) (Number.of_Z 0)
  else if (key =? "status")%string then
    negb (bool_decide (get formData "status" = Str "pending"))
    && negb (bool_decide (get formData "status" = Str "paid"))
  else false.

(** A storage failure [e] is reported by state [st]: a message-only result
    naming a database error, ending with the cause's message when the cause
    is an [Error]. *)
Definition reports (e : thrown) (st : State) : Prop :=
  ∃ m, st = just_message m
       ∧ includes "Database Error" m = true
       ∧ (instanceof_Error e = true → ends_with (error_message e) m = true).

(** An operation whose only storage call is rejected at rows [db w] reports
    it and leaves rows and cache as they were. *)
Definition absorbs_rejection (sql : statement → database → settled)
    (op : action State) : Prop :=
  ∀ w s e,
    issued (op w).2 = (issued w ++ [s])%list →
    sql s (db w) = rejected e →
    ∃ st, (op w).1 = Return st ∧ reports e st
          ∧ db (op w).2 = db w ∧ revalidated (op w).2 = revalidated w.

(** A refused submission: the state comes back with messages under [key]
    and the world is as it was (nothing reached the store). *)
Definition refused (out : completion State * world) (w : world) (key : string) : Prop :=
  ∃ st ms, out = (Return st, w) ∧ field_error st key = Some ms ∧ ms ≠ [].

(** The messages of the issues filed under [key]. *)
Definition messages_under (key : string) (issues : list Zod.ZodIssue) : list string :=
  map Zod.message (List.filter (λ i, (Zod.path i =? key)%string) issues).

(** The messages that parsing [input] against [shape] raises for field [k]. *)
Definition field_messages (shape : ZodObject) (input : gmap string value) (k : string)
    : list string :=
  flat_map
    (λ kt, if (kt.1 =? k)%string
           then map Zod.message
                  (Zod.parse_field kt.1 kt.2 (default undefined (input !! kt.1))).1
           else [])
    shape.

(** The world after a statement settled, without and with an invalidation. *)
Definition after_call (w : world) (d : database) (s : statement) : world :=
  {| db := d; revalidated := revalidated w; issued := issued w ++ [s]; now := now w |}.

Definition after_write (w : world) (d : database) (s : statement) (p : string) : world :=
  {| db := d; revalidated := revalidated w ++ [p]; issued := issued w ++ [s];
     now := now w |}.

(** The common tail of the four form actions once validation passed: one
    statement, then either the reported failure or invalidate-and-redirect. *)
Definition write_then_redirect (sql : statement → database → settled) (s : statement)
    (prefix p : string) (w : world) : completion State * world :=
  match sql s (db w) with
  | fulfilled d _ => (Throw (RedirectError p), after_write w d s p)
  | rejected e => (Return (database_error prefix e), after_call w (db w) s)
  end.

(** The statement each form action builds from validated data. *)
Definition insert_invoice_of (data : gmap string value) (w : world) : statement :=
  INSERT_invoice (prop data "customerId")
    (times (prop data "amount") (Num (Number.of_Z 100)))
    (prop data "status") (Str (Date.iso_day (now w))).

Definition update_invoice_of (data : gmap string value) (id : string) : statement :=
  UPDATE_invoice (prop data "customerId")
    (times (prop data "amount") (Num (Number.of_Z 100)))
    (prop data "status") id.

Definition insert_customer_of (data : gmap string value) : statement :=
  INSERT_customer (prop data "name") (prop data "email") (prop data "image_url").

Definition update_customer_of (data : gmap string value) (id : string) : statement :=
  UPDATE_customer (prop data "name") (prop data "email") (prop data "image_url") id.

(** An invoice row and the insert that writes it. *)
Definition invoice_row (id customerId : string) (amount : number) (status day : string)
    : invoice :=
  {| inv_id := id; inv_customer_id := Str customerId; inv_amount := Num amount;
     inv_status := Str status; inv_date := Str day |}.

Definition insert_of (r : invoice) : statement :=
  INSERT_invoice (inv_customer_id r) (inv_amount r) (inv_status r) (inv_date r).

(** The round trip of an update to [paid] asked of any form whose status
    is [paid]: the invoice reads back as [paid] with the customer it had. *)
Definition paid_round_trip (sql : statement → database → settled) (id : string)
    (prev : State) (fd : FormData) (w : world) : Prop :=
  ∀ r, invoice_by_id id (db w) = Some r →
       get fd "status" = Str "paid" →
       ∃ r', invoice_by_id id (db (updateInvoice sql id prev fd w).2) = Some r'
             ∧ inv_status r' = Str "paid"
             ∧ inv_customer_id r' = inv_customer_id r.

(** Concrete collaborators and inputs on which the properties are run. *)
Module Sample.

(** A store that completes every statement. *)
Definition pg (fresh : string) : statement → database → settled :=
  λ s d, fulfilled (fst (run fresh s d)) (snd (run fresh s d)).

(** A store that rejects every statement. *)
Definition unavailable (e : thrown) : statement → database → settled :=
  λ _ _, rejected e.

(** A store whose count query comes back without rows. *)
Definition no_rows (fresh : string) : statement → database → settled :=
  λ s d, match s with
         | SELECT_pending_count _ => fulfilled d []
         | _ => pg fresh s d
         end.

(** An identity provider that answers every attempt the same way. *)
Definition provider (answer : completion unit) : string → FormData → action unit :=
  λ _ _ w, (answer, w).

Definition clock : Date.t :=
  {| Date.year := 2024; Date.month := 3; Date.day := 7; Date.hours := 23;
     Date.minutes := 59; Date.seconds := 1; Date.ms := 5 |}.

Definition rows : database :=
  {| invoices :=
       [{| inv_id := "i1"; inv_customer_id := Str "c1";
           inv_amount := Num (Number.of_Z 1200); inv_status := Str "pending";
           inv_date := Str "2024-01-15" |};
        {| inv_id := "i2"; inv_customer_id := Str "c2";
           inv_amount := Num (Number.of_Z 700); inv_status := Str "paid";
           inv_date := Str "2024-02-01" |}];
     customers :=
       [{| cus_id := "c1"; cus_name := Str "Ada"; cus_email := Str "ada@example.com";
           cus_image_url := Str "/customers/ada.png" |};
        {| cus_id := "c2"; cus_name := Str "Lin"; cus_email := Str "lin@example.com";
           cus_image_url := Str "/customers/lin.png" |}] |}.

Definition w0 : world :=
  {| db := rows; revalidated := []; issued := []; now := clock |}.

Definition blank : State := {| errors := None; message := None |}.

Definition invoice_form (customerId amount status : string) : FormData :=
  [("customerId", Str customerId); ("amount", Str amount); ("status", Str status)].

Definition customer_form (name email image_url : string) : FormData :=
  [("name", Str name); ("email", Str email); ("image_url", Str image_url)].

End Sample.

(* ===================================================================== *)
(** ** Vocabulary of the further properties                               *)
(* ===================================================================== *)

(** A finite double's exponent is never below the smallest one. *)
Definition is_double (x : number) : bool :=
  match x with
  | S754_finite _ _ e => (emin Number.prec Number.emax <=? e)%Z
  | _ => true
  end.

(** [FormDataEntryValue]: a submitted form holds strings and files. *)
Definition FormDataEntryValue (v : value) : bool :=
  match v with Str _ | Obj _ => true | _ => false end.

Definition submitted (formData : FormData) : Prop :=
  Forall (λ kv, FormDataEntryValue kv.2 = true) formData.

(** The messages each invoice field raises, read off [FormSchema]. *)
Definition customerId_messages (v : value) : list string :=
  match v with
  | Str _ => []
  | undefined => ["Required"]
  | _ => ["Please select a customer."]
  end.

Definition amount_messages (v : value) : list string :=
  let x := ToNumber v in
  if Number.isNaN x then ["Expected number, received nan"]
  else if Number.leb x (Number.of_Z 0) then ["Please enter an amount greater than $0."]
  else [].

Definition status_messages (v : value) : list string :=
  match v with
  | Str s =>
      if bool_decide (s ∈ ["pending"; "paid"]) then []
      else ["Invalid enum value. Expected 'pending' | 'paid', received '" ++ s ++ "'"]
  | undefined => ["Required"]
  | _ => ["Please select an invoice status."]
  end.

Definition invoice_messages (formData : FormData) (key : string) : list string :=
  if ("customerId" =? key)%string then customerId_messages (get formData "customerId")
  else if ("amount" =? key)%string then amount_messages (get formData "amount")
  else if ("status" =? key)%string then status_messages (get formData "status")
  else [].

(** The messages a customer field raises, read off [FormcustumersSchema]. *)
Definition text_messages (v : value) : list string :=
  match v with
  | Str _ => []
  | undefined => ["Required"]
  | _ => ["Expected string, received " ++ Zod.type_name (Zod.getParsedType v)]
  end.

Definition customer_messages (formData : FormData) (key : string) : list string :=
  if bool_decide (key ∈ ["name"; "email"; "image_url"]) then text_messages (get formData key)
  else [].

(** The field errors object that carries exactly the given messages. *)
Definition carries (st : State) (messages : string → list string) : Prop :=
  ∃ fe, errors st = Some fe
        ∧ ∀ key, fe !! key = match messages key with [] => None | ms => Some ms end.

(** The three conditions under which an invoice form passes validation. *)
Definition valid_invoice_form (formData : FormData) : bool :=
  match get formData "customerId", get formData "status" with
  | Str _, Str s =>
      Number.ltb (Number.of_Z 0) (ToNumber (get formData "amount"))
      && bool_decide (s ∈ ["pending"; "paid"])
  | _, _ => false
  end.

(** The data-model invariant of an invoice row: the customer reference is
    a string, the amount a number greater than zero, the status one of the
    two allowed. *)
Definition sound_invoice (r : invoice) : bool :=
  match inv_customer_id r, inv_amount r with
  | Str _, Num x =>
      Number.ltb (Number.of_Z 0) x
      && (bool_decide (inv_status r = Str "pending")
          || bool_decide (inv_status r = Str "paid"))
  | _, _ => false
  end.

(** A store that, whenever it fulfils a statement, does so with the
    statement's relational effect. *)
Definition relational (sql : statement → database → settled) : Prop :=
  ∀ s d d' rows, sql s d = fulfilled d' rows → ∃ fresh, (d', rows) = run fresh s d.

(** A statement whose parameters, written to an invoice row, keep the row
    within the invariant; statements that write no invoice field do. *)
Definition sound_write (s : statement) : bool :=
  match s with
  | INSERT_invoice c a st d =>
      sound_invoice {| inv_id := ""; inv_customer_id := c; inv_amount := a;
                       inv_status := st; inv_date := d |}
  | UPDATE_invoice c a st _ =>
      sound_invoice {| inv_id := ""; inv_customer_id := c; inv_amount := a;
                       inv_status := st; inv_date := undefined |}
  | _ => true
  end.

(** Rows and cache move together: either neither changed, or the listing
    [p] was marked stale. *)
Definition coherent (p : string) (op : action State) : Prop :=
  ∀ w, (revalidated (op w).2 = revalidated w ∧ db (op w).2 = db w)
       ∨ revalidated (op w).2 = (revalidated w ++ [p])%list.

(** An operation hands the store at most two statements, at most one of
    them a write. *)
Definition frugal (op : action State) : Prop :=
  ∀ w, ∃ new, issued (op w).2 = (issued w ++ new)%list
              ∧ (length new ≤ 2)%nat
              ∧ (length (List.filter is_write new) ≤ 1)%nat.

(** A cell that is no object: [undefined], [null], a boolean, a number or
    text, which is what the driver gives for the column of a count. *)
Definition primitive (v : value) : bool :=
  match v with
  | Obj _ => false
  | _ => true
  end.

(** The count cell the guard of [deleteCustomers] looks at. *)
Definition count_cell (rows : list row) : value :=
  match rows !! 0%nat with
  | Some r => prop r "count"
  | None => undefined
  end.

(* ===================================================================== *)
(** * Properties                                                          *)
(* ===================================================================== *)

(** ** Doubles: rounding a positive integer never gives zero or NaN *)

Section Rounding.

Local Open Scope Z_scope.

Lemma shr_1_m (r : shr_record) : 0 <= shr_m r -> shr_m (shr_1 r) = shr_m r / 2.
Proof.
  destruct r as [m b s]; simpl; intros Hm.
  destruct m as [|p|p]; [reflexivity| |lia].
  destruct p as [p|p|]; simpl.
  - rewrite Pos2Z.inj_xI. apply Z.div_unique with (r := 1); lia.
  - rewrite Pos2Z.inj_xO. apply Z.div_unique with (r := 0); lia.
  - reflexivity.
Qed.

Lemma pow2_double (k : Z) : 0 <= k -> 2 ^ (2 * k) = 2 ^ k * 2 ^ k.
Proof. intros. replace (2 * k) with (k + k) by lia. apply Z.pow_add_r; lia. Qed.

Lemma iter_shr_1_m (n : positive) : forall r : shr_record,
  0 <= shr_m r -> shr_m (SpecFloat.iter_pos shr_1 n r) = shr_m r / 2 ^ Zpos n.
Proof.
  induction n as [n IH|n IH|]; intros r Hr; simpl SpecFloat.iter_pos.
  - assert (H1 : 0 <= shr_m (shr_1 r)) by (rewrite shr_1_m by lia; apply Z.div_pos; lia).
    assert (H2 : 0 <= shr_m (SpecFloat.iter_pos shr_1 n (shr_1 r)))
      by (rewrite IH by lia; apply Z.div_pos; lia).
    rewrite IH, IH, shr_1_m by lia.
    pose proof (Z.pow_pos_nonneg 2 (Z.pos n) ltac:(lia) ltac:(lia)).
    rewrite !Z.div_div by lia.
    f_equal. change (Z.pos n~1) with (2 * Z.pos n + 1).
    replace (2 * Z.pos n + 1) with (Z.succ (2 * Z.pos n)) by lia.
    rewrite Z.pow_succ_r, pow2_double by lia. lia.
  - assert (H2 : 0 <= shr_m (SpecFloat.iter_pos shr_1 n r))
      by (rewrite IH by lia; apply Z.div_pos; lia).
    rewrite IH, IH by lia.
    pose proof (Z.pow_pos_nonneg 2 (Z.pos n) ltac:(lia) ltac:(lia)).
    rewrite !Z.div_div by lia.
    f_equal. change (Z.pos n~0) with (2 * Z.pos n). rewrite pow2_double by lia. lia.
  - rewrite shr_1_m by lia. reflexivity.
Qed.

Lemma digits2_pos_bound (p : positive) : 2 ^ (Zpos (digits2_pos p) - 1) <= Zpos p.
Proof.
  induction p as [p IH|p IH|]; simpl digits2_pos.
  - rewrite Pos2Z.inj_succ. change (Z.pos p~1) with (2 * Z.pos p + 1).
    replace (Z.succ (Z.pos (digits2_pos p)) - 1) with (Z.succ (Z.pos (digits2_pos p) - 1)) by lia.
    rewrite Z.pow_succ_r by lia. lia.
  - rewrite Pos2Z.inj_succ. change (Z.pos p~0) with (2 * Z.pos p).
    replace (Z.succ (Z.pos (digits2_pos p)) - 1) with (Z.succ (Z.pos (digits2_pos p) - 1)) by lia.
    rewrite Z.pow_succ_r by lia. lia.
  - simpl. lia.
Qed.

Lemma digits2_pos_upper (p : positive) : Zpos p < 2 ^ Zpos (digits2_pos p).
Proof.
  induction p as [p IH|p IH|]; simpl digits2_pos.
  - rewrite Pos2Z.inj_succ, Z.pow_succ_r by lia. change (Z.pos p~1) with (2 * Z.pos p + 1). lia.
  - rewrite Pos2Z.inj_succ, Z.pow_succ_r by lia. change (Z.pos p~0) with (2 * Z.pos p). lia.
  - simpl. lia.
Qed.

Lemma digits2_pos_ge (p : positive) (k : Z) : 0 <= k -> 2 ^ k <= Zpos p -> k < Zpos (digits2_pos p).
Proof.
  intros Hk Hp. pose proof (digits2_pos_upper p) as Hu.
  destruct (Z.lt_ge_cases k (Zpos (digits2_pos p))) as [|Hge]; [assumption|].
  assert (2 ^ Zpos (digits2_pos p) <= 2 ^ k) by (apply Z.pow_le_mono_r; lia). lia.
Qed.

Lemma shr_fexp_pos (p : positive) (e : Z) (l : location) :
  emin Number.prec Number.emax <= e ->
  0 < shr_m (fst (shr_fexp Number.prec Number.emax (Zpos p) e l))
  /\ emin Number.prec Number.emax <= snd (shr_fexp Number.prec Number.emax (Zpos p) e l).
Proof.
  intros He. unfold shr_fexp, shr.
  assert (Hm : shr_m (shr_record_of_loc (Z.pos p) l) = Zpos p)
    by (destruct l as [|[]]; reflexivity).
  set (n := fexp Number.prec Number.emax (Zdigits2 (Z.pos p) + e) - e).
  assert (Hn : n <= Zpos (digits2_pos p) - 1).
  { subst n. unfold fexp, emin, Number.prec, Number.emax in *. simpl Zdigits2. lia. }
  destruct n as [|k|k] eqn:Hk; simpl fst; simpl snd; rewrite ?Hm; try lia.
  split; [|lia].
  rewrite iter_shr_1_m by lia. rewrite Hm.
  apply Z.div_str_pos. split; [lia|].
  pose proof (digits2_pos_bound p).
  assert (2 ^ Z.pos k <= 2 ^ (Z.pos (digits2_pos p) - 1)) by (apply Z.pow_le_mono_r; lia).
  lia.
Qed.

Lemma round_nearest_even_ge (m : Z) (l : location) : m <= round_nearest_even m l.
Proof. destruct l as [|[]]; simpl; try lia. destruct (Z.even m); lia. Qed.

Lemma binary_round_aux_sign (s : bool) (p : positive) (e : Z) (l : location) :
  emin Number.prec Number.emax <= e ->
  (exists m' e', binary_round_aux Number.prec Number.emax s (Zpos p) e l = S754_finite s m' e')
  \/ binary_round_aux Number.prec Number.emax s (Zpos p) e l = S754_infinity s.
Proof.
  intros He. unfold binary_round_aux.
  destruct (shr_fexp_pos p e l He) as [H1 H2].
  destruct (shr_fexp Number.prec Number.emax (Z.pos p) e l) as [mrs' e'].
  simpl in H1, H2.
  pose proof (round_nearest_even_ge (shr_m mrs') (loc_of_shr_record mrs')) as Hr.
  destruct (round_nearest_even (shr_m mrs') (loc_of_shr_record mrs')) as [|q|q]; try lia.
  destruct (shr_fexp_pos q e' loc_Exact H2) as [H3 H4].
  destruct (shr_fexp Number.prec Number.emax (Z.pos q) e' loc_Exact) as [mrs'' e''].
  simpl in H3, H4.
  destruct (shr_m mrs'') as [|m|m]; try lia.
  destruct (e'' <=? Number.emax - Number.prec); eauto.
Qed.

End Rounding.

(** ** Doubles: whole amounts times 100 are exact *)

Section ExactProducts.

Local Open Scope Z_scope.

Lemma iter_xO_Z (p k : positive) : Zpos (Pos.iter xO p k) = Zpos p * 2 ^ Zpos k.
Proof.
  induction k as [|k IH] using Pos.peano_ind.
  - cbn [Pos.iter]. change (Z.pos p~0) with (2 * Z.pos p). change (2 ^ 1) with 2. lia.
  - rewrite Pos.iter_succ. change (Z.pos (Pos.iter xO p k)~0) with (2 * Z.pos (Pos.iter xO p k)).
    rewrite IH, Pos2Z.inj_succ, Z.pow_succ_r by lia. lia.
Qed.

Lemma digits2_pos_unique (p : positive) (d : Z) :
  2 ^ (d - 1) <= Zpos p < 2 ^ d -> Zpos (digits2_pos p) = d.
Proof.
  intros [Hl Hu]. pose proof (digits2_pos_bound p) as Hb. pose proof (digits2_pos_upper p) as Hp.
  assert (0 < d).
  { destruct (Z.lt_ge_cases 0 d) as [|Hd]; [assumption|].
    assert (2 ^ d <= 2 ^ 0) by (destruct (Z.lt_ge_cases d 0);
      [rewrite Z.pow_neg_r by lia; cbn; lia | apply Z.pow_le_mono_r; lia]).
    cbn in *. lia. }
  destruct (Z.lt_total (Zpos (digits2_pos p)) d) as [Hlt|[Heq|Hgt]]; [|assumption|].
  - assert (2 ^ Zpos (digits2_pos p) <= 2 ^ (d - 1)) by (apply Z.pow_le_mono_r; lia). lia.
  - assert (2 ^ d <= 2 ^ (Zpos (digits2_pos p) - 1)) by (apply Z.pow_le_mono_r; lia). lia.
Qed.

Lemma digits2_pos_shift (p k : positive) :
  Zpos (digits2_pos (Pos.iter xO p k)) = Zpos (digits2_pos p) + Zpos k.
Proof.
  apply digits2_pos_unique. rewrite iter_xO_Z.
  pose proof (digits2_pos_bound p) as Hb. pose proof (digits2_pos_upper p) as Hp.
  replace (Z.pos (digits2_pos p) + Z.pos k - 1) with ((Z.pos (digits2_pos p) - 1) + Z.pos k) by lia.
  rewrite !Z.pow_add_r by lia.
  assert (0 < 2 ^ Z.pos k) by (apply Z.pow_pos_nonneg; lia). nia.
Qed.

Lemma digits2_pos_le (p : positive) (k : Z) : Zpos p < 2 ^ k -> Zpos (digits2_pos p) <= k.
Proof.
  intros Hp. pose proof (digits2_pos_bound p) as Hb.
  destruct (Z.le_gt_cases (Zpos (digits2_pos p)) k) as [|Hgt]; [assumption|].
  assert (2 ^ k <= 2 ^ (Zpos (digits2_pos p) - 1)) by (apply Z.pow_le_mono_r; lia). lia.
Qed.

(** Shifting out the bits that were shifted in loses nothing. *)
Lemma iter_shr_1_exact (k : positive) : forall q : positive,
  SpecFloat.iter_pos shr_1 k
    {| shr_m := Zpos (Pos.iter xO q k); shr_r := false; shr_s := false |}
  = {| shr_m := Zpos q; shr_r := false; shr_s := false |}.
Proof.
  induction k as [k IH|k IH|]; intros q; cbn [SpecFloat.iter_pos Pos.iter shr_1 orb].
  - now rewrite !IH.
  - now rewrite !IH.
  - reflexivity.
Qed.

(** A mantissa of 53 bits with an exponent in range is kept as it is. *)
Lemma shr_fexp_canonical (m : positive) (e : Z) :
  Zpos (digits2_pos m) = 53 -> emin Number.prec Number.emax <= e ->
  shr_fexp Number.prec Number.emax (Zpos m) e loc_Exact
  = ({| shr_m := Zpos m; shr_r := false; shr_s := false |}, e).
Proof.
  intros Hd He. unfold shr_fexp, shr. cbn [Zdigits2]. rewrite Hd.
  replace (fexp Number.prec Number.emax (53 + e) - e) with 0
    by (unfold fexp, emin, Number.prec, Number.emax in *; lia).
  reflexivity.
Qed.

Lemma binary_round_aux_canonical (s : bool) (m : positive) (e : Z) :
  Zpos (digits2_pos m) = 53 -> emin Number.prec Number.emax <= e <= 971 ->
  binary_round_aux Number.prec Number.emax s (Zpos m) e loc_Exact = S754_finite s m e.
Proof.
  intros Hd [He1 He2]. unfold binary_round_aux.
  rewrite shr_fexp_canonical by assumption. cbn [shr_m loc_of_shr_record round_nearest_even].
  rewrite shr_fexp_canonical by assumption. cbn [shr_m].
  replace (e <=? Number.emax - Number.prec) with true; [reflexivity|].
  symmetry. apply Z.leb_le. unfold Number.emax, Number.prec. lia.
Qed.

Lemma binary_round_aux_shifted (s : bool) (q k : positive) (e : Z) :
  Zpos (digits2_pos q) = 53 ->
  emin Number.prec Number.emax <= e + Zpos k <= 971 ->
  binary_round_aux Number.prec Number.emax s (Zpos (Pos.iter xO q k)) e loc_Exact
  = S754_finite s q (e + Zpos k).
Proof.
  intros Hd [He1 He2]. unfold binary_round_aux.
  assert (Hs : shr_fexp Number.prec Number.emax (Zpos (Pos.iter xO q k)) e loc_Exact
               = ({| shr_m := Zpos q; shr_r := false; shr_s := false |}, e + Zpos k)).
  { unfold shr_fexp, shr. cbn [Zdigits2]. rewrite digits2_pos_shift, Hd.
    replace (fexp Number.prec Number.emax (53 + Z.pos k + e) - e) with (Zpos k)
      by (unfold fexp, emin, Number.prec, Number.emax in *; lia).
    cbn [shr_record_of_loc]. now rewrite iter_shr_1_exact. }
  rewrite Hs. cbn [shr_m loc_of_shr_record round_nearest_even].
  rewrite shr_fexp_canonical by assumption. cbn [shr_m].
  replace (e + Z.pos k <=? Number.emax - Number.prec) with true; [reflexivity|].
  symmetry. apply Z.leb_le. unfold Number.emax, Number.prec. lia.
Qed.

(** A positive integer below [2^53] is a double as it is: its bits, moved
    up to fill the 53 of the mantissa. *)
Lemma of_Z_canonical (p : positive) :
  Zpos (digits2_pos p) <= 53 ->
  exists m : positive,
    Number.of_Z (Zpos p) = S754_finite false m (Zpos (digits2_pos p) - 53)
    /\ Zpos m = Zpos p * 2 ^ (53 - Zpos (digits2_pos p))
    /\ Zpos (digits2_pos m) = 53.
Proof.
  intros Hd. unfold Number.of_Z, binary_normalize, binary_round, shl_align.
  replace (fexp Number.prec Number.emax (Z.pos (digits2_pos p) + 0))
    with (Zpos (digits2_pos p) - 53)
    by (unfold fexp, emin, Number.prec, Number.emax; lia).
  replace (Z.pos (digits2_pos p) - 53 - 0) with (- (53 - Z.pos (digits2_pos p))) by lia.
  destruct (53 - Zpos (digits2_pos p)) as [|k|k] eqn:E; [| |lia]; cbn [Z.opp].
  - assert (Hp : Zpos (digits2_pos p) = 53) by lia.
    exists p. split; [|split; [change (2 ^ 0) with 1; lia | exact Hp]].
    replace (Z.pos (digits2_pos p) - 53) with 0 by lia.
    apply binary_round_aux_canonical; [exact Hp|].
    unfold emin, Number.prec, Number.emax. lia.
  - exists (Pos.iter xO p k). rewrite iter_xO_Z, digits2_pos_shift.
    split; [|split; lia].
    apply binary_round_aux_canonical; [rewrite digits2_pos_shift; lia|].
    unfold emin, Number.prec, Number.emax. lia.
Qed.

(** [x * 100] in doubles is the double of [100 x] for every whole [x] from
    [1] to [90071992547409], the last one with [100 x < 2^53]. *)
Lemma mul_100_exact (x : Z) :
  0 < x <= 90071992547409 ->
  Number.mul (Number.of_Z x) (Number.of_Z 100) = Number.of_Z (100 * x).
Proof.
  intros [Hx0 Hx]. destruct x as [|p|p]; try lia.
  change (100 * Z.pos p) with (Zpos (100 * p)).
  pose proof (digits2_pos_bound p) as Hbp. pose proof (digits2_pos_bound (100 * p)) as Hby.
  pose proof (digits2_pos_upper p) as Hup. pose proof (digits2_pos_upper (100 * p)) as Huy.
  assert (Hdx : Zpos (digits2_pos p) <= 47).
  { apply digits2_pos_le. change (2 ^ 47) with 140737488355328. lia. }
  assert (Hdy : Zpos (digits2_pos (100 * p)) <= 53).
  { apply digits2_pos_le. change (2 ^ 53) with 9007199254740992. lia. }
  assert (Hxy : Zpos (digits2_pos p) <= Zpos (digits2_pos (100 * p))).
  { apply digits2_pos_le. lia. }
  destruct (of_Z_canonical p ltac:(lia)) as (mx & -> & Hmx & _).
  destruct (of_Z_canonical (100 * p) Hdy) as (my & -> & Hmy & Hdm).
  change (Number.of_Z 100) with (S754_finite false 7036874417766400 (-46)).
  unfold Number.mul, SFmul. cbn [xorb].
  set (dx := Zpos (digits2_pos p)) in *. set (dy := Zpos (digits2_pos (100 * p))) in *.
  destruct (46 + dy - dx) as [|k|k] eqn:Ek; try lia.
  replace (mx * 7036874417766400)%positive with (Pos.iter xO my k).
  - rewrite binary_round_aux_shifted; [f_equal; lia | exact Hdm |].
    unfold emin, Number.prec, Number.emax. lia.
  - apply Pos2Z.inj. rewrite iter_xO_Z, Pos2Z.inj_mul, Hmx, Hmy, <- Ek.
    rewrite Pos2Z.inj_mul.
    change (Z.pos 7036874417766400) with (100 * 2 ^ 46).
    replace (Z.pos 100 * Z.pos p * 2 ^ (53 - dy) * 2 ^ (46 + dy - dx))
      with (Z.pos 100 * Z.pos p * (2 ^ (53 - dy) * 2 ^ (46 + dy - dx))) by ring.
    rewrite <- Z.pow_add_r by lia.
    replace (Z.pos p * 2 ^ (53 - dx) * (100 * 2 ^ 46))
      with (Z.pos 100 * Z.pos p * (2 ^ (53 - dx) * 2 ^ 46)) by ring.
    rewrite <- Z.pow_add_r by lia. do 2 f_equal. lia.
Qed.

(** A positive integer is a double greater than zero. *)
Lemma of_Z_pos_gt_0 (p : positive) :
  Number.ltb (Number.of_Z 0) (Number.of_Z (Zpos p)) = true
  /\ ToBoolean (Num (Number.of_Z (Zpos p))) = true.
Proof.
  unfold Number.of_Z, binary_normalize, binary_round.
  destruct (shl_align p 0 (fexp Number.prec Number.emax (Z.pos (digits2_pos p) + 0)))
    as [mz ez] eqn:Hs.
  assert (He : emin Number.prec Number.emax <= ez).
  { unfold shl_align in Hs.
    destruct (fexp Number.prec Number.emax (Z.pos (digits2_pos p) + 0) - 0) eqn:Hd;
      inversion Hs; subst; unfold fexp, emin, Number.prec, Number.emax in *; lia. }
  destruct (binary_round_aux_sign false mz ez loc_Exact He) as [(m' & e' & ->)| ->];
    split; reflexivity.
Qed.

End ExactProducts.

(** ** A decimal count cell read back as a number *)

Ltac uint_cases d IH :=
  induction d as [|d IH|d IH|d IH|d IH|d IH|d IH|d IH|d IH|d IH|d IH].

Lemma read_digits_pos_acc (d : Decimal.uint) : forall (a : positive) (cnt : N),
  read_digits 10 (NilEmpty.string_of_uint d) (Npos a) cnt
  = (Npos (Pos.of_uint_acc d a), (cnt + N.of_nat (Decimal.nb_digits d))%N, "").
Proof.
  uint_cases d IH; intros a cnt; cbn [NilEmpty.string_of_uint Decimal.nb_digits Pos.of_uint_acc];
    [ cbn; do 2 f_equal; lia | .. ];
    (cbn [read_digits]; 
     match goal with |- context [digit_of 10 ?c] =>
       let v := eval vm_compute in (digit_of 10 c) in
       change (digit_of 10 c) with v end;
     cbv iota;
     match goal with |- read_digits 10 _ ?x ?c = _ =>
       match goal with |- _ = (Npos (Pos.of_uint_acc _ ?y), _, _) =>
         replace x with (Npos y) by lia end end;
     rewrite IH; do 2 f_equal; lia).
Qed.

Lemma read_digits_uint (d : Decimal.uint) : forall cnt : N,
  read_digits 10 (NilEmpty.string_of_uint d) 0 cnt
  = (Pos.of_uint d, (cnt + N.of_nat (Decimal.nb_digits d))%N, "").
Proof.
  uint_cases d IH; intros cnt; cbn [NilEmpty.string_of_uint Decimal.nb_digits Pos.of_uint];
    [ cbn; do 2 f_equal; lia | .. ];
    (cbn [read_digits]; 
     match goal with |- context [digit_of 10 ?c] =>
       let v := eval vm_compute in (digit_of 10 c) in
       change (digit_of 10 c) with v end;
     cbv iota;
     first [ change (10 * 0 + 0)%N with 0%N; rewrite IH; do 2 f_equal; lia
           | match goal with |- read_digits 10 _ ?x ?c = _ =>
               let v := eval vm_compute in x in change x with v end;
             rewrite read_digits_pos_acc; do 2 f_equal; lia ]).
Qed.

Lemma white_length_uint (d : Decimal.uint) :
  white_length (NilEmpty.string_of_uint d) = 0%nat.
Proof.
  destruct d; [reflexivity | ..]; cbn [NilEmpty.string_of_uint];
    destruct (NilEmpty.string_of_uint d) as [|b [|c r]]; reflexivity.
Qed.

Lemma trim_uint (d : Decimal.uint) :
  trim (NilEmpty.string_of_uint d) = NilEmpty.string_of_uint d.
Proof.
  unfold trim.
  replace (trim_start (NilEmpty.string_of_uint d)) with (NilEmpty.string_of_uint d).
  2: { unfold trim_start. pose proof (white_length_uint d) as H.
       destruct (NilEmpty.string_of_uint d); [reflexivity|].
       cbn [drop_white]. now rewrite H. }
  uint_cases d IH; [reflexivity | ..];
    match goal with
    | |- trim_end (NilEmpty.string_of_uint ?x) = _ =>
        pose proof (white_length_uint x) as H
    end;
    cbn [NilEmpty.string_of_uint] in *; cbn [trim_end only_white];
    rewrite H, IH; reflexivity.
Qed.

Lemma unsigned_decimal_uint (d : Decimal.uint) :
  d <> Decimal.Nil ->
  unsigned_decimal false (NilEmpty.string_of_uint d)
  = Number.of_decimal false (N.of_uint d) 0.
Proof.
  intros Hd. unfold unsigned_decimal.
  replace (NilEmpty.string_of_uint d =? "Infinity") with false
    by (destruct d; reflexivity).
  rewrite read_digits_uint.
  replace ((0 + N.of_nat (Decimal.nb_digits d) =? 0)%N) with false
    by (destruct d; [congruence | ..]; symmetry; apply N.eqb_neq; cbn [Decimal.nb_digits]; lia).
  reflexivity.
Qed.

Lemma StringToNumber_uint (d : Decimal.uint) :
  d <> Decimal.Nil ->
  StringToNumber (NilEmpty.string_of_uint d) = Number.of_decimal false (N.of_uint d) 0.
Proof.
  intros Hd. rewrite <- unsigned_decimal_uint by assumption.
  unfold StringToNumber. rewrite trim_uint.
  destruct d as [|l|l|l|l|l|l|l|l|l|l]; try congruence; try reflexivity.
  destruct l; reflexivity.
Qed.

Lemma to_uint_not_Nil (n : N) : N.to_uint n <> Decimal.Nil.
Proof.
  intros H. pose proof (DecimalN.Unsigned.of_to n) as E. rewrite H in E.
  cbn in E. subst n. discriminate H.
Qed.

Lemma StringToNumber_decimal (n : N) :
  StringToNumber (decimal n) = Number.of_decimal false n 0.
Proof.
  unfold decimal. rewrite StringToNumber_uint by apply to_uint_not_Nil.
  now rewrite DecimalN.Unsigned.of_to.
Qed.

Lemma decimal_gt_0 (n : N) :
  gt_num (Str (decimal n)) (Number.of_Z 0) = (0 <? n)%N.
Proof.
  unfold gt_num, ToNumber. rewrite StringToNumber_decimal.
  destruct n as [|p]; [reflexivity|].
  unfold Number.of_decimal. change (Z.to_pos (10 ^ 0)) with 1%positive.
  unfold binary_round.
  destruct (shl_align (p * 1) 0 (fexp Number.prec Number.emax (Z.pos (digits2_pos (p * 1)) + 0)))
    as [mz ez] eqn:Hs.
  assert (He : emin Number.prec Number.emax <= ez).
  { unfold shl_align in Hs.
    destruct (fexp Number.prec Number.emax (Z.pos (digits2_pos (p * 1)) + 0) - 0) eqn:Hd;
      inversion Hs; subst; unfold fexp, emin, Number.prec, Number.emax in *; lia. }
  destruct (binary_round_aux_sign false mz ez loc_Exact He) as [(m' & e' & ->)| ->];
    reflexivity.
Qed.

Lemma decimal_truthy (n : N) : ToBoolean (Str (decimal n)) = true.
Proof.
  unfold ToBoolean, decimal. pose proof (to_uint_not_Nil n).
  destruct (N.to_uint n); [congruence | ..]; reflexivity.
Qed.

(** ** Sanity checks of the runtime model *)

Example StringToNumber_samples :
  StringToNumber "50" = Number.of_Z 50
  ∧ StringToNumber "  " = Number.pos_zero
  ∧ StringToNumber "abc" = Number.NaN
  ∧ StringToNumber " 1.5e1 " = Number.of_Z 15
  ∧ StringToNumber "-.5" = Number.of_decimal true 5 (-1)
  ∧ StringToNumber "0x1F" = Number.of_Z 31
  ∧ StringToNumber "1e" = Number.NaN
  ∧ StringToNumber "." = Number.NaN
  ∧ StringToNumber "-Infinity" = S754_infinity true.
Proof. vm_compute. repeat split; reflexivity. Qed.

(** [1.1 * 100] is [110.00000000000001] in doubles, not the double [110]. *)
Example mul_rounds :
  Number.mul (StringToNumber "1.1") (Number.of_Z 100) = StringToNumber "110.00000000000001"
  ∧ StringToNumber "110.00000000000001" ≠ Number.of_Z 110.
Proof. vm_compute. split; [reflexivity | discriminate]. Qed.

(** White space beyond one byte is stripped as [Number()] strips it:
    U+3000, U+00A0, U+FEFF and U+2028 around ['50'] leave 50, while U+200B,
    which is no white space, does not. *)
Example StringToNumber_unicode_space :
  StringToNumber (String "227" (String "128" (String "128" "50"))) = Number.of_Z 50
  ∧ StringToNumber (String "194" (String "160" "50")) = Number.of_Z 50
  ∧ StringToNumber (String "239" (String "187" (String "191"
                      (String "5" (String "0" (String "226" (String "128" (String "168" ""))))))))
    = Number.of_Z 50
  ∧ StringToNumber (String "226" (String "128" (String "139" "50"))) = Number.NaN.
Proof. vm_compute. repeat split; reflexivity. Qed.

(** An amount of U+3000 followed by ['50'] is valid and stored as 5000. *)
Example createInvoice_ideographic_space :
  let row := invoice_row "i3" "c1" (Number.of_Z 5000) "pending" "2024-03-07" in
  createInvoice (Sample.pg "i3") Sample.blank
    (Sample.invoice_form "c1" (String "227" (String "128" (String "128" "50"))) "pending")
    Sample.w0
  = (Throw (RedirectError "/dashboard/invoices"),
     {| db := {| invoices := (invoices Sample.rows ++ [row])%list;
                 customers := customers Sample.rows |};
        revalidated := ["/dashboard/invoices"];
        issued := [insert_of row];
        now := Sample.clock |}).
Proof. reflexivity. Qed.

(** The primitive value of an object without a [toString] of its own is no
    numeric literal, whatever its class: [ToNumber] gives NaN for it. *)
Lemma object_text_NaN (c : string) : StringToNumber ("[object " ++ c ++ "]") = Number.NaN.
Proof.
  change ("[object " ++ c ++ "]")
    with (String "[" (String "o" (String "b" ("ject " ++ c ++ "]")))).
  set (r := String "o" (String "b" ("ject " ++ c ++ "]"))).
  unfold StringToNumber, trim, trim_start.
  assert (H : drop_white 0 (String "[" r) = String "[" r) by reflexivity.
  rewrite H.
  assert (H2 : trim_end (String "[" r) = String "[" (trim_end r)) by reflexivity.
  rewrite H2. reflexivity.
Qed.

Example toISOString_sample : Date.toISOString Sample.clock = "2024-03-07T23:59:01.005Z".
Proof. reflexivity. Qed.

(** ** The day part of an ISO timestamp *)

Lemma occurs_app (c : ascii) (s t : string) :
  occurs c (s ++ t) = occurs c s || occurs c t.
Proof.
  induction s as [|a s IH]; [reflexivity|].
  simpl. rewrite IH. apply orb_assoc.
Qed.

Lemma digit_char_not_T (n : N) : (Date.digit_char n =? "T")%char = false.
Proof.
  apply Ascii.eqb_neq. unfold Date.digit_char. intros H.
  apply (f_equal N_of_ascii) in H.
  pose proof (N.mod_upper_bound n 10 ltac:(lia)).
  rewrite N_ascii_embedding in H by lia.
  change (N_of_ascii "T") with 84%N in H. lia.
Qed.

Lemma pad_no_T (width : nat) : ∀ n, occurs "T" (Date.pad width n) = false.
Proof.
  induction width as [|k IH]; intros n; [reflexivity|].
  simpl Date.pad. rewrite occurs_app, IH. simpl occurs.
  now rewrite digit_char_not_T.
Qed.

Lemma iso_day_no_T (d : Date.t) : occurs "T" (Date.iso_day d) = false.
Proof.
  unfold Date.iso_day, Date.year_string.
  destruct ((0 <=? Date.year d)%Z && (Date.year d <=? 9999)%Z);
    [| destruct (Date.year d <? 0)%Z];
    rewrite ?occurs_app, ?pad_no_T; reflexivity.
Qed.

Lemma split_first (sep : ascii) (s t : string) :
  occurs sep s = false →
  split sep (s ++ String sep t) = s :: split sep t.
Proof.
  induction s as [|a s IH]; simpl; intros H.
  - now rewrite Ascii.eqb_refl.
  - apply orb_false_elim in H as [Ha Hs]. rewrite Ha, (IH Hs). reflexivity.
Qed.

(** [new Date().toISOString().split('T')[0]] is the UTC calendar day. *)
Lemma today (d : Date.t) :
  first (split "T" (Date.toISOString d)) = Str (Date.iso_day d).
Proof.
  unfold Date.toISOString.
  change ("T" ++ ?x) with (String "T" x).
  rewrite split_first by apply iso_day_no_T. reflexivity.
Qed.

(** ** Validation: what [flatten] reports and when [safeParse] fails *)

Lemma fieldErrors_fold (key : string) (issues : list Zod.ZodIssue) :
  ∀ acc : gmap string (list string),
    fold_left
      (λ acc sub, <[Zod.path sub := (default [] (acc !! Zod.path sub) ++ [Zod.message sub])%list]> acc)
      issues acc !! key
    = match messages_under key issues with
      | [] => acc !! key
      | ms => Some (default [] (acc !! key) ++ ms)%list
      end.
Proof.
  induction issues as [|i issues IH]; intros acc; [reflexivity|].
  cbn [fold_left]. rewrite IH. unfold messages_under. cbn [List.filter].
  destruct (String.eqb_spec (Zod.path i) key) as [->|Hne].
  - rewrite lookup_insert_eq. simpl.
    fold (messages_under key issues).
    destruct (messages_under key issues); [reflexivity|].
    simpl. now rewrite <- app_assoc.
  - now rewrite lookup_insert_ne.
Qed.

Lemma fieldErrors_lookup (key : string) (issues : list Zod.ZodIssue) :
  fieldErrors issues !! key
  = match messages_under key issues with [] => None | ms => Some ms end.
Proof.
  unfold fieldErrors. rewrite fieldErrors_fold, lookup_empty.
  now destruct (messages_under key issues).
Qed.

Lemma messages_under_app key (l1 l2 : list Zod.ZodIssue) :
  messages_under key (l1 ++ l2) = (messages_under key l1 ++ messages_under key l2)%list.
Proof. unfold messages_under. now rewrite List.filter_app, map_app. Qed.

Lemma parse_field_path (key : string) (t : Zod.ZodType) (v : value) :
  Forall (λ i, Zod.path i = key) (Zod.parse_field key t v).1.
Proof.
  destruct t as [params|def|values params]; cbn [Zod.parse_field].
  - destruct v; repeat constructor.
  - destruct (if Zod.coerce def then Num (ToNumber v) else v) as [| |b|x|s|c];
      try (repeat constructor).
    destruct (Number.isNaN x); [repeat constructor|]. cbn [fst].
    induction (Zod.checks def) as [|c cs IH]; [constructor|].
    cbn [flat_map]. apply Forall_app. split; [|exact IH].
    unfold Zod.run_check. destruct (if Zod.check_inclusive c then _ else _); repeat constructor.
  - destruct v as [| |b|x|s|c]; try (repeat constructor).
    destruct (bool_decide (s ∈ values)); repeat constructor.
Qed.

Lemma messages_under_field (key k : string) (t : Zod.ZodType) (v : value) :
  messages_under k (Zod.parse_field key t v).1
  = if (key =? k)%string then map Zod.message (Zod.parse_field key t v).1 else [].
Proof.
  pose proof (parse_field_path key t v) as H. unfold messages_under.
  induction H as [|i l Hi Hl IH]; [now destruct (key =? k)%string|].
  cbn [List.filter map]. rewrite Hi.
  destruct (key =? k)%string; cbn [map]; now rewrite IH.
Qed.

Lemma messages_under_object (shape : ZodObject) (input : gmap string value) (k : string) :
  messages_under k (Zod.parse_object shape input).1 = field_messages shape input k.
Proof.
  induction shape as [|[key t] rest IH]; [reflexivity|].
  cbn [Zod.parse_object field_messages flat_map fst snd].
  destruct (Zod.parse_field key t (default undefined (input !! key))) as [issues out] eqn:Hf.
  destruct (Zod.parse_object rest input) as [issues' data] eqn:Ho.
  cbn [fst] in *. rewrite messages_under_app, IH.
  f_equal. pose proof (messages_under_field key k t (default undefined (input !! key))) as E.
  now rewrite Hf in E.
Qed.

Lemma safeParse_cases (shape : ZodObject) (input : gmap string value) :
  (∃ data, safeParse shape input = success data ∧ Zod.parse_object shape input = ([], data))
  ∨ (∃ issues, safeParse shape input = failure issues ∧ issues ≠ []
               ∧ (Zod.parse_object shape input).1 = issues).
Proof.
  unfold safeParse. destruct (Zod.parse_object shape input) as [[|i issues] data].
  - left. eauto.
  - right. eexists. repeat split. discriminate.
Qed.

Lemma invoice_shape :
  CreateInvoice =
    [("customerId", z_string {| Zod.invalid_type_error := Some "Please select a customer." |});
     ("amount", ZodNumber (gt (Number.of_Z 0) "Please enter an amount greater than $0." z_coerce_number));
     ("status", z_enum ["pending"; "paid"]
                  {| Zod.invalid_type_error := Some "Please select an invoice status." |})]
  ∧ UpdateInvoice = CreateInvoice.
Proof. split; reflexivity. Qed.

Lemma invoice_fields_lookup (fd : FormData) :
  invoice_fields fd !! "customerId" = Some (get fd "customerId")
  ∧ invoice_fields fd !! "amount" = Some (get fd "amount")
  ∧ invoice_fields fd !! "status" = Some (get fd "status").
Proof. repeat split; reflexivity. Qed.

Lemma amount_field (v : value) :
  Zod.parse_field "amount"
    (ZodNumber (gt (Number.of_Z 0) "Please enter an amount greater than $0." z_coerce_number)) v
  = let x := ToNumber v in
    if Number.isNaN x then
      ([Zod.issue Zod.invalid_type "amount" "Expected number, received nan"], None)
    else if Number.leb x (Number.of_Z 0) then
      ([Zod.issue Zod.too_small "amount" "Please enter an amount greater than $0."],
       Some (Num x))
    else ([], Some (Num x)).
Proof.
  cbn [Zod.parse_field gt z_coerce_number Zod.coerce Zod.checks app].
  cbv zeta. destruct (Number.isNaN (ToNumber v)) eqn:Hn.
  - unfold Zod.getParsedType. now rewrite Hn.
  - cbn [flat_map app]. unfold Zod.run_check. cbn [Zod.check_inclusive Zod.check_value Zod.check_message].
    now destruct (Number.leb (ToNumber v) (Number.of_Z 0)).
Qed.

Section Runs.

Variable sql : statement → database → settled.

Ltac run_action :=
  unfold mbind, action_bind, mret, action_ret, try_catch, sql_call, new_Date,
    revalidatePath, redirect, write_then_redirect, after_call, after_write.

Lemma createInvoice_run prev fd w :
  createInvoice sql prev fd w =
  match safeParse CreateInvoice (invoice_fields fd) with
  | failure issues =>
      (Return {| errors := Some (fieldErrors issues);
                 message := Some "Missing Fields. Failed to Create Invoice." |}, w)
  | success data =>
      write_then_redirect sql (insert_invoice_of data w)
        "Database Error: Failed to Create Invoice. " "/dashboard/invoices" w
  end.
Proof.
  unfold createInvoice. destruct (safeParse _ _) as [data|issues]; [|reflexivity].
  run_action. rewrite today. unfold insert_invoice_of.
  destruct (sql _ _); reflexivity.
Qed.

Lemma updateInvoice_run id prev fd w :
  updateInvoice sql id prev fd w =
  match safeParse UpdateInvoice (invoice_fields fd) with
  | failure issues =>
      (Return {| errors := Some (fieldErrors issues);
                 message := Some "Missing Fields. Failed to Update Invoice." |}, w)
  | success data =>
      write_then_redirect sql (update_invoice_of data id)
        "Database Error: Failed to Update Invoice. " "/dashboard/invoices" w
  end.
Proof.
  unfold updateInvoice. destruct (safeParse _ _) as [data|issues]; [|reflexivity].
  run_action. unfold update_invoice_of. destruct (sql _ _); reflexivity.
Qed.

Lemma createCustomers_run prev fd w :
  createCustomers sql prev fd w =
  match safeParse CreateCustomers (customer_fields fd) with
  | failure issues =>
      (Return {| errors := Some (fieldErrors issues);
                 message := Some "Missing Fields. Failed to Create Customers." |}, w)
  | success data =>
      write_then_redirect sql (insert_customer_of data)
        "Database Error: Failed to Create Customers. " "/dashboard/customers" w
  end.
Proof.
  unfold createCustomers. destruct (safeParse _ _) as [data|issues]; [|reflexivity].
  run_action. unfold insert_customer_of. destruct (sql _ _); reflexivity.
Qed.

Lemma updateCustomers_run id prev fd w :
  updateCustomers sql id prev fd w =
  match safeParse UpdateCustomer (customer_fields fd) with
  | failure issues =>
      (Return {| errors := Some (fieldErrors issues);
                 message := Some "Missing Fields. Failed to Update customers." |}, w)
  | success data =>
      write_then_redirect sql (update_customer_of data id)
        "Database Error: Failed to Update customers. " "/dashboard/customers" w
  end.
Proof.
  unfold updateCustomers. destruct (safeParse _ _) as [data|issues]; [|reflexivity].
  run_action. unfold update_customer_of. destruct (sql _ _); reflexivity.
Qed.

Lemma deleteInvoice_run id w :
  deleteInvoice sql id w =
  match sql (DELETE_invoice id) (db w) with
  | fulfilled d _ =>
      (Return (just_message "Deleted Invoice."),
       after_write w d (DELETE_invoice id) "/dashboard/invoices")
  | rejected e =>
      (Return (database_error "Database Error: Failed to Delete Invoice. " e),
       after_call w (db w) (DELETE_invoice id))
  end.
Proof. unfold deleteInvoice. run_action. destruct (sql _ _); reflexivity. Qed.

Lemma deleteCustomers_run id w :
  deleteCustomers sql id w =
  let failed := Return (just_message "Database Error: Failed to delete customer.") in
  match sql (SELECT_pending_count id) (db w) with
  | rejected _ => (failed, after_call w (db w) (SELECT_pending_count id))
  | fulfilled d rows =>
      let w1 := after_call w d (SELECT_pending_count id) in
      if gt_num (pendingInvoices_of rows) (Number.of_Z 0) then
        (Return (just_message "no se elimino"), w1)
      else
        match sql (DELETE_customer id) d with
        | rejected _ => (failed, after_call w1 d (DELETE_customer id))
        | fulfilled d' _ =>
            (Return (just_message "Customer deleted successfully."),
             after_write w1 d' (DELETE_customer id) "/dashboard/customers")
        end
  end.
Proof.
  unfold deleteCustomers. run_action. cbv zeta.
  destruct (sql (SELECT_pending_count id) (db w)) as [d rows|e]; [|reflexivity].
  destruct (gt_num _ _); [reflexivity|]. cbn [db].
  destruct (sql (DELETE_customer id) d); reflexivity.
Qed.

End Runs.

Lemma failure_of_field_messages (shape : ZodObject) (input : gmap string value) (k : string) :
  field_messages shape input k ≠ [] →
  ∃ issues, safeParse shape input = failure issues
            ∧ fieldErrors issues !! k = Some (field_messages shape input k).
Proof.
  intros Hne.
  destruct (safeParse_cases shape input) as [(data & _ & Hp)|(issues & Hs & _ & Hp)].
  - exfalso. apply Hne. rewrite <- messages_under_object, Hp. reflexivity.
  - exists issues. split; [exact Hs|].
    rewrite fieldErrors_lookup, <- Hp, messages_under_object.
    now destruct (field_messages shape input k).
Qed.

Lemma leb_not_NaN (x y : number) : Number.leb x y = true → Number.isNaN x = false.
Proof. now destruct x. Qed.

Lemma amount_messages_le0 (fd : FormData) :
  Number.leb (ToNumber (get fd "amount")) (Number.of_Z 0) = true →
  field_messages CreateInvoice (invoice_fields fd) "amount"
  = ["Please enter an amount greater than $0."].
Proof.
  intros H. unfold field_messages.
  rewrite (proj1 invoice_shape). cbn [flat_map fst snd String.eqb Ascii.eqb Bool.eqb app].
  rewrite (proj1 (proj2 (invoice_fields_lookup fd))). cbn [default from_option id].
  rewrite amount_field. cbv zeta. rewrite (leb_not_NaN _ _ H), H. reflexivity.
Qed.

Lemma amount_messages_NaN (fd : FormData) :
  Number.isNaN (ToNumber (get fd "amount")) = true →
  field_messages CreateInvoice (invoice_fields fd) "amount"
  = ["Expected number, received nan"].
Proof.
  intros H. unfold field_messages.
  rewrite (proj1 invoice_shape). cbn [flat_map fst snd String.eqb Ascii.eqb Bool.eqb app].
  rewrite (proj1 (proj2 (invoice_fields_lookup fd))). cbn [default from_option id].
  rewrite amount_field. cbv zeta. rewrite H. reflexivity.
Qed.

Lemma status_messages_bad (fd : FormData) :
  get fd "status" ≠ Str "pending" → get fd "status" ≠ Str "paid" →
  ∃ m, field_messages CreateInvoice (invoice_fields fd) "status" = [m].
Proof.
  intros H1 H2. unfold field_messages.
  rewrite (proj1 invoice_shape). cbn [flat_map fst snd String.eqb Ascii.eqb Bool.eqb app].
  rewrite (proj2 (proj2 (invoice_fields_lookup fd))). cbn [default from_option id].
  unfold z_enum. cbn [Zod.parse_field].
  destruct (get fd "status") as [| |b|x|s|c]; try (eexists; reflexivity).
  rewrite bool_decide_eq_false_2; [eexists; reflexivity|].
  rewrite !elem_of_cons, elem_of_nil. intros [->|[->|[]]]; congruence.
Qed.

Lemma offending_messages (fd : FormData) (key : string) :
  offending fd key = true →
  field_messages CreateInvoice (invoice_fields fd) key ≠ [].
Proof.
  unfold offending. intros H.
  destruct (key =? "amount") eqn:Ea.
  - apply String.eqb_eq in Ea. subst key. now rewrite amount_messages_le0.
  - destruct (key =? "status") eqn:Es; [|discriminate].
    apply String.eqb_eq in Es. subst key.
    apply andb_prop in H as [H1 H2].
    apply negb_true_iff, bool_decide_eq_false in H1, H2.
    destruct (status_messages_bad fd H1 H2) as [m ->]. discriminate.
Qed.

(** C2. An invoice form whose amount coerces to a number [<= 0], or whose
    status is not exactly [pending] or [paid], is refused by [createInvoice]
    and by [updateInvoice]: the returned state carries messages under the
    offending field ([amount] or [status]) and the world is unchanged, so
    nothing was written. *)
Theorem invoice_form_refused sql id prev fd key w :
  offending fd key = true →
  refused (createInvoice sql prev fd w) w key
  ∧ refused (updateInvoice sql id prev fd w) w key.
Proof.
  intros H. apply offending_messages in H.
  destruct (failure_of_field_messages _ _ _ H) as (issues & Hs & Hl).
  rewrite createInvoice_run, updateInvoice_run, (proj2 invoice_shape), Hs.
  assert (Hk : ∀ m, refused (Return {| errors := Some (fieldErrors issues); message := m |}, w) w key).
  { intros m. exists {| errors := Some (fieldErrors issues); message := m |},
      (field_messages CreateInvoice (invoice_fields fd) key).
    split; [reflexivity|]. split; [exact Hl|exact H]. }
  split; apply Hk.
Qed.

Lemma gt0_passes (x : number) :
  Number.ltb (Number.of_Z 0) x = true →
  Number.isNaN x = false ∧ Number.leb x (Number.of_Z 0) = false.
Proof. destruct x as [s|s| |s m e]; try discriminate; destruct s; try discriminate; now split. Qed.

Lemma invoice_accepted (fd : FormData) (c s : string) :
  get fd "customerId" = Str c →
  Number.ltb (Number.of_Z 0) (ToNumber (get fd "amount")) = true →
  get fd "status" = Str s → s ∈ ["pending"; "paid"] →
  ∃ data, safeParse CreateInvoice (invoice_fields fd) = success data
          ∧ prop data "customerId" = Str c
          ∧ prop data "amount" = Num (ToNumber (get fd "amount"))
          ∧ prop data "status" = Str s.
Proof.
  intros Hc Ha Hs Hin. destruct (gt0_passes _ Ha) as [Hn Hl].
  unfold safeParse. rewrite (proj1 invoice_shape). cbn [Zod.parse_object].
  destruct (invoice_fields_lookup fd) as (-> & -> & ->). cbn [default from_option id].
  rewrite amount_field. cbv zeta. rewrite Hc, Hs, Hn, Hl.
  unfold z_string, z_enum. cbn [Zod.parse_field].
  rewrite bool_decide_eq_true_2 by exact Hin. cbn [app].
  eexists. split; [reflexivity|]. repeat split; reflexivity.
Qed.

Lemma createInvoice_stores_row sql prev w fresh fd c s :
  get fd "customerId" = Str c →
  Number.ltb (Number.of_Z 0) (ToNumber (get fd "amount")) = true →
  get fd "status" = Str s → s ∈ ["pending"; "paid"] →
  let row := invoice_row fresh c
               (Number.mul (ToNumber (get fd "amount")) (Number.of_Z 100)) s
               (Date.iso_day (now w)) in
  completes sql fresh (insert_of row) (db w) →
  createInvoice sql prev fd w =
    (Throw (RedirectError "/dashboard/invoices"),
     {| db := {| invoices := invoices (db w) ++ [row]; customers := customers (db w) |};
        revalidated := revalidated w ++ ["/dashboard/invoices"];
        issued := issued w ++ [insert_of row];
        now := now w |}).
Proof.
  intros Hc Ha Hs Hin row Hsql.
  destruct (invoice_accepted fd c s Hc Ha Hs Hin) as (data & Hp & Dc & Da & Ds).
  rewrite createInvoice_run, Hp. unfold write_then_redirect, insert_invoice_of.
  rewrite Dc, Da, Ds. unfold completes in Hsql.
  change (times (Num ?x) (Num ?y)) with (Num (Number.mul x y)).
  change (INSERT_invoice _ _ _ _) with (insert_of row).
  rewrite Hsql. reflexivity.
Qed.

(** C3 as stated fails for a fractional amount: for the valid input
    [{customerId:'c1', amount:'1.1', status:'pending'}] the row that
    [createInvoice] stores holds [110.00000000000001], the double product
    [1.1 * 100], which is greater than [110]. *)
Lemma createInvoice_rounds_cents :
  let out := createInvoice (Sample.pg "i3") Sample.blank
               (Sample.invoice_form "c1" "1.1" "pending") Sample.w0 in
  out.1 = Throw (RedirectError "/dashboard/invoices")
  ∧ invoice_by_id "i3" (db out.2)
    = Some (invoice_row "i3" "c1" (StringToNumber "110.00000000000001") "pending"
              "2024-03-07")
  ∧ StringToNumber "110.00000000000001" ≠ Number.of_Z 110
  ∧ Number.ltb (Number.of_Z 110) (StringToNumber "110.00000000000001") = true.
Proof. vm_compute. repeat split; discriminate. Qed.

(** C3 (amended). For a valid create input (customer a string, amount
    coercing to a double [X > 0], status one of the two) and a store that
    completes the insert, [createInvoice] appends the row
    [(customerId, X * 100, status, today)], where [X * 100] is the product
    in doubles and [today] the UTC calendar day of the clock in ISO form,
    marks the invoices listing stale and redirects to it. When the amount
    coerces to a whole number [x] with [1 <= x <= 90071992547409], the
    stored amount is exactly [100 x]. For the input
    [{customerId:'c1', amount:'50', status:'pending'}] the row is
    [('c1', 5000, 'pending', today)]. *)
Theorem createInvoice_persists sql prev w fresh :
  (∀ fd c s,
     get fd "customerId" = Str c →
     Number.ltb (Number.of_Z 0) (ToNumber (get fd "amount")) = true →
     get fd "status" = Str s → s ∈ ["pending"; "paid"] →
     let row := invoice_row fresh c
                  (Number.mul (ToNumber (get fd "amount")) (Number.of_Z 100)) s
                  (Date.iso_day (now w)) in
     completes sql fresh (insert_of row) (db w) →
     createInvoice sql prev fd w =
       (Throw (RedirectError "/dashboard/invoices"),
        {| db := {| invoices := invoices (db w) ++ [row]; customers := customers (db w) |};
           revalidated := revalidated w ++ ["/dashboard/invoices"];
           issued := issued w ++ [insert_of row];
           now := now w |}))
  ∧ (∀ fd c s x,
     get fd "customerId" = Str c →
     ToNumber (get fd "amount") = Number.of_Z x → (0 < x ≤ 90071992547409)%Z →
     get fd "status" = Str s → s ∈ ["pending"; "paid"] →
     let row := invoice_row fresh c (Number.of_Z (100 * x)) s (Date.iso_day (now w)) in
     completes sql fresh (insert_of row) (db w) →
     createInvoice sql prev fd w =
       (Throw (RedirectError "/dashboard/invoices"),
        {| db := {| invoices := invoices (db w) ++ [row]; customers := customers (db w) |};
           revalidated := revalidated w ++ ["/dashboard/invoices"];
           issued := issued w ++ [insert_of row];
           now := now w |}))
  ∧ (let row := invoice_row fresh "c1" (Number.of_Z 5000) "pending" (Date.iso_day (now w)) in
     completes sql fresh (insert_of row) (db w) →
     createInvoice sql prev (Sample.invoice_form "c1" "50" "pending") w =
       (Throw (RedirectError "/dashboard/invoices"),
        {| db := {| invoices := invoices (db w) ++ [row]; customers := customers (db w) |};
           revalidated := revalidated w ++ ["/dashboard/invoices"];
           issued := issued w ++ [insert_of row];
           now := now w |})).
Proof.
  split; [apply createInvoice_stores_row|]. split.
  - intros fd c s x Hc Hx Hr Hs Hin. rewrite <- (mul_100_exact x Hr), <- Hx.
    apply createInvoice_stores_row; try assumption.
    rewrite Hx. destruct x as [|p|p]; [lia | | lia]. apply of_Z_pos_gt_0.
  - intros row Hsql.
    apply (createInvoice_stores_row sql prev w fresh
             (Sample.invoice_form "c1" "50" "pending") "c1" "pending");
      try reflexivity; [set_solver | exact Hsql].
Qed.

Lemma find_filter_out (id : string) (l : list customer) :
  List.find (λ r, (cus_id r =? id)%string)
    (List.filter (λ r, negb (cus_id r =? id)%string) l) = None.
Proof.
  induction l as [|r l IH]; [reflexivity|]. cbn [List.filter].
  destruct (cus_id r =? id)%string eqn:E; cbn [negb]; [exact IH|].
  cbn [List.find]. now rewrite E.
Qed.

Lemma pending_observed (n : N) :
  gt_num (pendingInvoices_of [{[ "count" := Str (decimal n) ]}]) (Number.of_Z 0) = (0 <? n)%N.
Proof.
  unfold pendingInvoices_of. cbn [lookup list_lookup].
  replace (prop {[ "count" := Str (decimal n) ]} "count") with (Str (decimal n))
    by reflexivity.
  unfold JS.or. rewrite decimal_truthy. apply decimal_gt_0.
Qed.

(** C1. [deleteCustomers], when the count query answers: with at least one
    pending invoice of the customer the result is ["no se elimino"], the rows
    are untouched and nothing is invalidated; with none (and a store that
    completes the delete) the customer row is gone, the customers listing is
    marked stale and the success message is returned. *)
Theorem deleteCustomers_guard sql id w :
  completes sql "" (SELECT_pending_count id) (db w) →
  ((0 < pending_count id (db w))%N →
     deleteCustomers sql id w =
       (Return (just_message "no se elimino"),
        {| db := db w; revalidated := revalidated w;
           issued := (issued w ++ [SELECT_pending_count id])%list; now := now w |}))
  ∧ (pending_count id (db w) = 0%N →
     completes sql "" (DELETE_customer id) (db w) →
     ∃ w', deleteCustomers sql id w =
             (Return (just_message "Customer deleted successfully."), w')
           ∧ customer_by_id id (db w') = None
           ∧ invoices (db w') = invoices (db w)
           ∧ revalidated w' = (revalidated w ++ ["/dashboard/customers"])%list
           ∧ issued w' = (issued w ++ [SELECT_pending_count id; DELETE_customer id])%list).
Proof.
  unfold completes. cbn [run fst snd]. intros Hc.
  rewrite deleteCustomers_run, Hc. cbv zeta. rewrite pending_observed.
  split.
  - intros Hpos. apply N.ltb_lt in Hpos. now rewrite Hpos.
  - intros H0 Hd. rewrite H0. cbn [N.ltb N.compare]. rewrite Hd.
    eexists. split; [reflexivity|]. cbn [db after_write after_call customers invoices
      revalidated issued run fst snd].
    unfold customer_by_id. cbn [customers].
    rewrite find_filter_out, <- app_assoc. repeat split.
Qed.

Lemma shown_count_guard (rows : list row) (n : N) :
  shows_count rows n →
  gt_num (pendingInvoices_of rows) (Number.of_Z 0) = (0 <? n)%N.
Proof.
  intros (r & rest & -> & [H|H]); unfold pendingInvoices_of;
    change ((r :: rest) !! 0%nat) with (Some r); unfold prop; rewrite H;
    cbn [default from_option id]; unfold JS.or.
  - rewrite decimal_truthy. apply decimal_gt_0.
  - destruct n as [|p]; [reflexivity|]. change (Z.of_N (N.pos p)) with (Z.pos p).
    destruct (of_Z_pos_gt_0 p) as [Hgt ->]. exact Hgt.
Qed.

(** C5. In every run of [deleteCustomers] the count query is the first
    statement issued, and a DELETE is issued only after that query was
    fulfilled with a result that shows no count greater than zero. When the
    result of the query shows a count greater than zero, the run ends with
    ["no se elimino"] after the query alone: the check gates the delete,
    nothing is rolled back. *)
Theorem deleteCustomers_count_gates_delete sql id w :
  (let w' := (deleteCustomers sql id w).2 in
   issued w' = (issued w ++ [SELECT_pending_count id])%list
   ∨ (issued w' = (issued w ++ [SELECT_pending_count id; DELETE_customer id])%list
      ∧ ∃ d rows, sql (SELECT_pending_count id) (db w) = fulfilled d rows
                  ∧ ∀ n, shows_count rows n → n = 0%N))
  ∧ (∀ d rows n,
       sql (SELECT_pending_count id) (db w) = fulfilled d rows →
       shows_count rows n → (0 < n)%N →
       deleteCustomers sql id w =
         (Return (just_message "no se elimino"),
          {| db := d; revalidated := revalidated w;
             issued := (issued w ++ [SELECT_pending_count id])%list; now := now w |})).
Proof.
  cbv zeta. rewrite deleteCustomers_run. cbv zeta. split.
  - destruct (sql (SELECT_pending_count id) (db w)) as [d rows|e]; [|now left].
    destruct (gt_num (pendingInvoices_of rows) (Number.of_Z 0)) eqn:Hgt; [now left|].
    right. split.
    + destruct (sql (DELETE_customer id) d); cbn; now rewrite <- app_assoc.
    + exists d, rows. split; [reflexivity|]. intros n Hn.
      rewrite (shown_count_guard rows n Hn) in Hgt. apply N.ltb_ge in Hgt. lia.
  - intros d rows n -> Hn Hpos. rewrite (shown_count_guard rows n Hn).
    apply N.ltb_lt in Hpos. now rewrite Hpos.
Qed.

(** C10. When the count query is fulfilled with no rows, or with a first
    row that has no [count] cell, the pending count defaults to [0] and
    [deleteCustomers] goes on to delete the customer. *)
Theorem deleteCustomers_missing_count sql id w d rows :
  sql (SELECT_pending_count id) (db w) = fulfilled d rows →
  (rows = [] ∨ ∃ r rest, rows = r :: rest ∧ r !! "count" = None) →
  pendingInvoices_of rows = Num (Number.of_Z 0)
  ∧ issued (deleteCustomers sql id w).2
    = (issued w ++ [SELECT_pending_count id; DELETE_customer id])%list
  ∧ ∀ d' rows', sql (DELETE_customer id) d = fulfilled d' rows' →
      deleteCustomers sql id w =
        (Return (just_message "Customer deleted successfully."),
         {| db := d'; revalidated := (revalidated w ++ ["/dashboard/customers"])%list;
            issued := (issued w ++ [SELECT_pending_count id; DELETE_customer id])%list;
            now := now w |}).
Proof.
  intros Hsel Hrows.
  assert (Hp : pendingInvoices_of rows = Num (Number.of_Z 0)).
  { destruct Hrows as [->|(r & rest & -> & Hr)]; [reflexivity|].
    unfold pendingInvoices_of. change ((r :: rest) !! 0%nat) with (Some r).
    unfold prop. now rewrite Hr. }
  split; [exact Hp|].
  rewrite deleteCustomers_run, Hsel. cbv zeta. rewrite Hp.
  change (gt_num (Num (Number.of_Z 0)) (Number.of_Z 0)) with false. cbv iota.
  split.
  - destruct (sql (DELETE_customer id) d); cbn; now rewrite <- app_assoc.
  - intros d' rows' ->. unfold after_write, after_call. cbn. now rewrite <- app_assoc.
Qed.

Lemma ends_with_refl (s : string) : ends_with s s = true.
Proof. destruct s; cbn [ends_with]; now rewrite String.eqb_refl. Qed.

Lemma ends_with_app (p s : string) : ends_with s (p ++ s) = true.
Proof.
  induction p as [|a p IH]; [apply ends_with_refl|].
  simpl. rewrite IH. apply orb_true_r.
Qed.

Lemma prefix_app (p s : string) : String.prefix p (p ++ s) = true.
Proof.
  induction p as [|a p IH]; [now destruct s|].
  simpl. now destruct (ascii_dec a a).
Qed.

Lemma append_assoc (a b c : string) : (a ++ b) ++ c = a ++ (b ++ c).
Proof.
  induction a as [|x a IH]; [reflexivity|].
  change (String x ((a ++ b) ++ c) = String x (a ++ (b ++ c))). now rewrite IH.
Qed.

Lemma includes_app (n s : string) : includes n (n ++ s) = true.
Proof. destruct (n ++ s) eqn:E; unfold includes; rewrite <- E, prefix_app; reflexivity. Qed.

Lemma database_error_reports (rest : string) (e : thrown) :
  reports e (database_error ("Database Error" ++ rest) e).
Proof.
  unfold reports, database_error. eexists. split; [reflexivity|]. split.
  - rewrite append_assoc. apply includes_app.
  - intros ->. apply ends_with_app.
Qed.

Lemma app_singleton_inv {A} (l : list A) (x y : A) : (l ++ [x] = l ++ [y])%list → x = y.
Proof. intros H. apply app_inv_head in H. now inversion H. Qed.

Lemma app_singleton_neq {A} (l : list A) (x : A) : l ≠ (l ++ [x])%list.
Proof.
  intros H. apply (f_equal length) in H. rewrite length_app in H. cbn in H. lia.
Qed.

Lemma write_then_redirect_absorbs sql (s0 : statement) (rest p : string) (w : world)
    (s : statement) (e : thrown) :
  let out := write_then_redirect sql s0 ("Database Error" ++ rest) p w in
  issued out.2 = (issued w ++ [s])%list →
  sql s (db w) = rejected e →
  ∃ st, out.1 = Return st ∧ reports e st
        ∧ db out.2 = db w ∧ revalidated out.2 = revalidated w.
Proof.
  cbv zeta. unfold write_then_redirect.
  destruct (sql s0 (db w)) as [d rows|e0] eqn:E0; cbn; intros Hi Hr;
    apply app_singleton_inv in Hi; subst s0; rewrite Hr in E0; [discriminate|].
  injection E0 as <-. eexists. split; [reflexivity|].
  split; [apply database_error_reports|]. now split.
Qed.

Ltac absorb_validated run_eq :=
  intros w s e; rewrite run_eq;
  match goal with |- context [safeParse ?sh ?i] => destruct (safeParse sh i) end;
  [ apply (write_then_redirect_absorbs _ _ _ _ w s e)
  | cbn; intros Hi; now apply app_singleton_neq in Hi ].

(** X18. What every operation does with a rejected storage call: it is
    caught, the result is a message-only state whose message contains
    ["Database Error"], and rows and cache are as they were. For
    [createInvoice], [updateInvoice], [deleteInvoice], [createCustomers] and
    [updateCustomers] the message ends with the cause's message when the
    cause is an [Error]. For [deleteCustomers] this covers a rejected count
    query and a rejected delete after a count that did not block it. *)
Theorem storage_failure_absorbed sql prev fd id :
  absorbs_rejection sql (createInvoice sql prev fd)
  ∧ absorbs_rejection sql (updateInvoice sql id prev fd)
  ∧ absorbs_rejection sql (deleteInvoice sql id)
  ∧ absorbs_rejection sql (createCustomers sql prev fd)
  ∧ absorbs_rejection sql (updateCustomers sql id prev fd)
  ∧ (∀ w e,
       sql (SELECT_pending_count id) (db w) = rejected e →
       ∃ m, includes "Database Error" m = true
            ∧ deleteCustomers sql id w =
                (Return (just_message m),
                 {| db := db w; revalidated := revalidated w;
                    issued := (issued w ++ [SELECT_pending_count id])%list;
                    now := now w |}))
  ∧ (∀ w rows e,
       sql (SELECT_pending_count id) (db w) = fulfilled (db w) rows →
       gt_num (pendingInvoices_of rows) (Number.of_Z 0) = false →
       sql (DELETE_customer id) (db w) = rejected e →
       ∃ m, includes "Database Error" m = true
            ∧ deleteCustomers sql id w =
                (Return (just_message m),
                 {| db := db w; revalidated := revalidated w;
                    issued := issued w ++ [SELECT_pending_count id; DELETE_customer id];
                    now := now w |})).
Proof.
  repeat apply conj.
  - absorb_validated createInvoice_run.
  - absorb_validated updateInvoice_run.
  - intros w s e. rewrite deleteInvoice_run.
    destruct (sql (DELETE_invoice id) (db w)) as [d rows|e0] eqn:E0; cbn; intros Hi Hr;
      apply app_singleton_inv in Hi; subst s; rewrite Hr in E0; [discriminate|].
    injection E0 as <-. eexists. split; [reflexivity|].
    split; [apply (database_error_reports ": Failed to Delete Invoice. ")|]. now split.
  - absorb_validated createCustomers_run.
  - absorb_validated updateCustomers_run.
  - intros w e H. rewrite deleteCustomers_run, H.
    eexists. split; [|reflexivity]. reflexivity.
  - intros w rows e Hs Hg Hd. rewrite deleteCustomers_run, Hs. cbv zeta.
    rewrite Hg, Hd. unfold after_call. cbn.
    eexists. split; [|now rewrite <- app_assoc]. reflexivity.
Qed.

(** C4. [deleteCustomers] misses what the claim says and what its five
    siblings do. With the store rejecting every statement with
    [Error "connection refused"], [deleteCustomers('c1')] returns the fixed
    message ["Database Error: Failed to delete customer."], which does not
    end with the cause, while [deleteInvoice('i1')] on the same store
    returns its message with the cause appended. *)
Lemma deleteCustomers_drops_cause :
  let cause := Error "connection refused" in
  let down := Sample.unavailable cause in
  deleteCustomers down "c1" Sample.w0
  = (Return (just_message "Database Error: Failed to delete customer."),
     {| db := Sample.rows; revalidated := [];
        issued := [SELECT_pending_count "c1"]; now := Sample.clock |})
  ∧ (deleteInvoice down "i1" Sample.w0).1
    = Return (just_message "Database Error: Failed to Delete Invoice. connection refused")
  ∧ ends_with (error_message cause) "Database Error: Failed to delete customer." = false
  ∧ ¬ absorbs_rejection down (deleteCustomers down "c1").
Proof.
  cbv zeta. repeat apply conj; try reflexivity.
  intros H.
  destruct (H Sample.w0 (SELECT_pending_count "c1") (Error "connection refused")
              eq_refl eq_refl) as (st & Hst & (m & -> & _ & Hend) & _).
  injection Hst as <-. specialize (Hend eq_refl). vm_compute in Hend. discriminate.
Qed.

(** C6. [authenticate] returns nothing when [signIn] succeeds, the string
    ["Invalid credentials."] on an [AuthError] of type [CredentialsSignin],
    ["Something went wrong."] on any other [AuthError], and rethrows every
    other thrown value as it is. *)
Theorem authenticate_translates signIn prev fd w w' :
  (signIn "credentials" fd w = (Return tt, w') →
     authenticate signIn prev fd w = (Return undefined, w'))
  ∧ (∀ m, signIn "credentials" fd w = (Throw (AuthError "CredentialsSignin" m), w') →
     authenticate signIn prev fd w = (Return (Str "Invalid credentials."), w'))
  ∧ (∀ type m, type ≠ "CredentialsSignin" →
     signIn "credentials" fd w = (Throw (AuthError type m), w') →
     authenticate signIn prev fd w = (Return (Str "Something went wrong."), w'))
  ∧ (∀ e, (∀ type m, e ≠ AuthError type m) →
     signIn "credentials" fd w = (Throw e, w') →
     authenticate signIn prev fd w = (Throw e, w')).
Proof.
  unfold authenticate, try_catch, mbind, action_bind, mret, action_ret.
  repeat apply conj.
  - now intros ->.
  - now intros m ->.
  - intros type m Hne ->. apply String.eqb_neq in Hne. now rewrite Hne.
  - intros e Hne ->. destruct e as [m|ty m|u|v]; try reflexivity. now destruct (Hne ty m).
Qed.

Lemma set_invoice_id c a s id (r : invoice) : inv_id (set_invoice c a s id r) = inv_id r.
Proof. unfold set_invoice. now destruct (inv_id r =? id)%string. Qed.

Lemma find_set_invoice c a s id (l : list invoice) (r : invoice) :
  List.find (λ r, (inv_id r =? id)%string) l = Some r →
  List.find (λ r, (inv_id r =? id)%string) (map (set_invoice c a s id) l)
  = Some {| inv_id := inv_id r; inv_customer_id := c; inv_amount := a;
            inv_status := s; inv_date := inv_date r |}.
Proof.
  induction l as [|r0 l IH]; [discriminate|]. cbn [List.find map].
  rewrite set_invoice_id.
  destruct (inv_id r0 =? id)%string eqn:E; [|exact IH].
  intros [= ->]. unfold set_invoice. now rewrite E.
Qed.

(** C8 as stated fails twice over: a form that carries only the status is
    refused and the invoice stays [pending]; a valid form with status [paid]
    and another customer moves the invoice to that customer. *)
Lemma updateInvoice_moves_customer :
  ¬ paid_round_trip (Sample.pg "i3") "i1" Sample.blank [("status", Str "paid")] Sample.w0
  ∧ ¬ paid_round_trip (Sample.pg "i3") "i1" Sample.blank
        (Sample.invoice_form "c2" "12" "paid") Sample.w0.
Proof.
  split; intros H; destruct (H _ eq_refl eq_refl) as (r' & Hr & Hs & Hc);
    vm_compute in Hr; injection Hr as <-; [discriminate Hs | discriminate Hc].
Qed.

(** C8 (amended). After [updateInvoice] with a valid form whose status is
    [paid], on a store that completes the update, reading the invoice back
    gives status [paid], the customer reference of the form, the amount of
    the form in cents, and the identifier and date it had. *)
Theorem updateInvoice_paid_read_back sql id prev fd w r c :
  invoice_by_id id (db w) = Some r →
  get fd "status" = Str "paid" →
  get fd "customerId" = Str c →
  Number.ltb (Number.of_Z 0) (ToNumber (get fd "amount")) = true →
  let cents := Num (Number.mul (ToNumber (get fd "amount")) (Number.of_Z 100)) in
  completes sql "" (UPDATE_invoice (Str c) cents (Str "paid") id) (db w) →
  invoice_by_id id (db (updateInvoice sql id prev fd w).2)
  = Some {| inv_id := inv_id r; inv_customer_id := Str c; inv_amount := cents;
            inv_status := Str "paid"; inv_date := inv_date r |}.
Proof.
  intros Hr Hs Hc Ha cents Hsql.
  destruct (invoice_accepted fd c "paid" Hc Ha Hs ltac:(set_solver))
    as (data & Hp & Dc & Da & Ds).
  rewrite updateInvoice_run, (proj2 invoice_shape), Hp.
  unfold write_then_redirect, update_invoice_of. rewrite Dc, Da, Ds.
  change (times (Num ?x) (Num ?y)) with (Num (Number.mul x y)). fold cents.
  unfold completes in Hsql. rewrite Hsql. cbn [run fst snd after_write db].
  unfold invoice_by_id in *. cbn [invoices]. now apply find_set_invoice.
Qed.

Lemma customer_shape :
  CreateCustomers = [("name", z_string no_params); ("email", z_string no_params);
                     ("image_url", z_string no_params)]
  ∧ UpdateCustomer = CreateCustomers.
Proof. split; reflexivity. Qed.

Lemma customer_fields_lookup (fd : FormData) (k : string) :
  k ∈ ["name"; "email"; "image_url"] → customer_fields fd !! k = Some (get fd k).
Proof. rewrite !elem_of_cons, elem_of_nil. intros [->|[->|[->|[]]]]; reflexivity. Qed.

Lemma string_field_messages (fd : FormData) (k : string) :
  k ∈ ["name"; "email"; "image_url"] →
  (∀ s, get fd k ≠ Str s) →
  field_messages CreateCustomers (customer_fields fd) k ≠ [].
Proof.
  intros Hk Hns. unfold field_messages. rewrite (proj1 customer_shape).
  pose proof (customer_fields_lookup fd k Hk) as Hl.
  rewrite !elem_of_cons, elem_of_nil in Hk.
  destruct Hk as [->|[->|[->|[]]]];
    cbn [flat_map fst snd String.eqb Ascii.eqb Bool.eqb app]; rewrite Hl;
    cbn [default from_option id]; unfold z_string; cbn [Zod.parse_field];
    (destruct (get fd _) as [| |b|x|s|c]; [ .. | now destruct (Hns s) | ]; discriminate).
Qed.

Lemma customer_accepted (fd : FormData) (n e i : string) :
  get fd "name" = Str n → get fd "email" = Str e → get fd "image_url" = Str i →
  ∃ data, safeParse CreateCustomers (customer_fields fd) = success data
          ∧ prop data "name" = Str n ∧ prop data "email" = Str e
          ∧ prop data "image_url" = Str i.
Proof.
  intros Hn He Hi. unfold safeParse. rewrite (proj1 customer_shape).
  cbn [Zod.parse_object].
  rewrite !customer_fields_lookup by set_solver. cbn [default from_option id].
  rewrite Hn, He, Hi. unfold z_string. cbn [Zod.parse_field app].
  eexists. split; [reflexivity|]. repeat split; reflexivity.
Qed.

Lemma customer_refused sql id prev fd w k :
  k ∈ ["name"; "email"; "image_url"] → (∀ s, get fd k ≠ Str s) →
  refused (createCustomers sql prev fd w) w k
  ∧ refused (updateCustomers sql id prev fd w) w k.
Proof.
  intros Hk Hns. pose proof (string_field_messages fd k Hk Hns) as Hne.
  destruct (failure_of_field_messages _ _ _ Hne) as (issues & Hs & Hl).
  rewrite createCustomers_run, updateCustomers_run, (proj2 customer_shape), Hs.
  split; eexists _, _; (split; [reflexivity|]); (split; [exact Hl|exact Hne]).
Qed.

Lemma string_or_not (v : value) : (∃ s, v = Str s) ∨ (∀ s, v ≠ Str s).
Proof. destruct v; eauto; right; discriminate. Qed.

(** C9 (amended). A customer form either has strings (possibly empty) for
    [name], [email] and [image_url], and then the insert or update carries
    exactly these three strings, or one of the three is not a string and
    both actions refuse the form before any write. *)
Theorem customer_writes_carry_strings sql id prev fd w fresh :
  (∃ n e i,
     get fd "name" = Str n ∧ get fd "email" = Str e ∧ get fd "image_url" = Str i
     ∧ issued (createCustomers sql prev fd w).2
       = (issued w ++ [INSERT_customer (Str n) (Str e) (Str i)])%list
     ∧ issued (updateCustomers sql id prev fd w).2
       = (issued w ++ [UPDATE_customer (Str n) (Str e) (Str i) id])%list
     ∧ (completes sql fresh (INSERT_customer (Str n) (Str e) (Str i)) (db w) →
        customers (db (createCustomers sql prev fd w).2)
        = (customers (db w) ++
             [{| cus_id := fresh; cus_name := Str n; cus_email := Str e;
                 cus_image_url := Str i |}])%list))
  ∨ (∃ k, k ∈ ["name"; "email"; "image_url"] ∧ (∀ s, get fd k ≠ Str s)
          ∧ refused (createCustomers sql prev fd w) w k
          ∧ refused (updateCustomers sql id prev fd w) w k).
Proof.
  destruct (string_or_not (get fd "name")) as [[n Hn]|Hn];
    [| right; exists "name"; split; [set_solver|]; split; [exact Hn|];
       apply customer_refused; [set_solver | exact Hn]].
  destruct (string_or_not (get fd "email")) as [[e He]|He];
    [| right; exists "email"; split; [set_solver|]; split; [exact He|];
       apply customer_refused; [set_solver | exact He]].
  destruct (string_or_not (get fd "image_url")) as [[i Hi]|Hi];
    [| right; exists "image_url"; split; [set_solver|]; split; [exact Hi|];
       apply customer_refused; [set_solver | exact Hi]].
  left. exists n, e, i. repeat (split; [assumption|]).
  destruct (customer_accepted fd n e i Hn He Hi) as (data & Hp & Dn & De & Di).
  rewrite createCustomers_run, updateCustomers_run, (proj2 customer_shape), Hp.
  unfold write_then_redirect, insert_customer_of, update_customer_of, completes.
  rewrite Dn, De, Di.
  split; [|split].
  - now destruct (sql _ _).
  - now destruct (sql _ _).
  - now intros ->.
Qed.

(** C9 as stated fails: a form with empty name and email is written. *)
Lemma createCustomers_accepts_empty_name :
  let w' := (createCustomers (Sample.pg "c3") Sample.blank
               (Sample.customer_form "" "" "/customers/none.png") Sample.w0).2 in
  ∃ r, customer_by_id "c3" (db w') = Some r
       ∧ cus_name r = Str "" ∧ cus_email r = Str ""
       ∧ issued w' = [INSERT_customer (Str "") (Str "") (Str "/customers/none.png")].
Proof. vm_compute. eexists. repeat split. Qed.

(** ** The properties at the sample inputs *)

Lemma deleteCustomers_guard_witness :
  completes (Sample.pg "c3") "" (SELECT_pending_count "c1") (db Sample.w0)
  ∧ (0 < pending_count "c1" (db Sample.w0))%N
  ∧ deleteCustomers (Sample.pg "c3") "c1" Sample.w0 =
      (Return (just_message "no se elimino"),
       {| db := Sample.rows; revalidated := [];
          issued := [SELECT_pending_count "c1"]; now := Sample.clock |}).
Proof.
  split; [reflexivity|]. split; [reflexivity|].
  apply (proj1 (deleteCustomers_guard (Sample.pg "c3") "c1" Sample.w0 eq_refl)).
  reflexivity.
Defined.

Lemma deleteCustomers_count_gates_delete_witness :
  Sample.pg "" (SELECT_pending_count "c1") (db Sample.w0)
  = fulfilled Sample.rows [{[ "count" := Str "1" ]}]
  ∧ shows_count [{[ "count" := Str "1" ]}] 1
  ∧ deleteCustomers (Sample.pg "") "c1" Sample.w0 =
      (Return (just_message "no se elimino"),
       {| db := Sample.rows; revalidated := [];
          issued := [SELECT_pending_count "c1"]; now := Sample.clock |}).
Proof.
  assert (Hn : shows_count [{[ "count" := Str "1" ]}] 1)
    by (exists {[ "count" := Str "1" ]}, []; split; [reflexivity | left; reflexivity]).
  split; [reflexivity|]. split; [exact Hn|].
  apply (proj2 (deleteCustomers_count_gates_delete (Sample.pg "") "c1" Sample.w0)
           Sample.rows [{[ "count" := Str "1" ]}] 1%N eq_refl Hn).
  reflexivity.
Defined.

Lemma invoice_form_refused_witness :
  let form := Sample.invoice_form "c1" "0" "pending" in
  offending form "amount" = true
  ∧ refused (createInvoice (Sample.pg "i3") Sample.blank form Sample.w0) Sample.w0 "amount"
  ∧ refused (updateInvoice (Sample.pg "i3") "i1" Sample.blank form Sample.w0)
      Sample.w0 "amount".
Proof.
  cbv zeta. split; [reflexivity|].
  apply (invoice_form_refused (Sample.pg "i3") "i1" Sample.blank
           (Sample.invoice_form "c1" "0" "pending") "amount" Sample.w0).
  reflexivity.
Defined.

Lemma createInvoice_persists_witness :
  let fd := Sample.invoice_form "c1" " 1250 " "paid" in
  let row := invoice_row "i3" "c1" (Number.of_Z 125000) "paid" "2024-03-07" in
  ToNumber (get fd "amount") = Number.of_Z 1250
  ∧ completes (Sample.pg "i3") "i3" (insert_of row) (db Sample.w0)
  ∧ createInvoice (Sample.pg "i3") Sample.blank fd Sample.w0 =
      (Throw (RedirectError "/dashboard/invoices"),
       {| db := {| invoices := invoices Sample.rows ++ [row];
                   customers := customers Sample.rows |};
          revalidated := ["/dashboard/invoices"];
          issued := [insert_of row];
          now := Sample.clock |}).
Proof.
  cbv zeta. split; [reflexivity|]. split; [reflexivity|].
  apply (proj1 (proj2 (createInvoice_persists (Sample.pg "i3") Sample.blank Sample.w0 "i3"))
           (Sample.invoice_form "c1" " 1250 " "paid") "c1" "paid" 1250%Z);
    [reflexivity | reflexivity | lia | reflexivity | set_solver | reflexivity].
Defined.

Lemma storage_failure_absorbed_witness :
  let cause := Error "connection refused" in
  let down := Sample.unavailable cause in
  let form := Sample.invoice_form "c1" "50" "pending" in
  let stmt := insert_of (invoice_row "" "c1" (Number.of_Z 5000) "pending" "2024-03-07") in
  issued (createInvoice down Sample.blank form Sample.w0).2 = (issued Sample.w0 ++ [stmt])%list
  ∧ down stmt (db Sample.w0) = rejected cause
  ∧ ∃ st, (createInvoice down Sample.blank form Sample.w0).1 = Return st
          ∧ reports cause st
          ∧ db (createInvoice down Sample.blank form Sample.w0).2 = db Sample.w0
          ∧ revalidated (createInvoice down Sample.blank form Sample.w0).2
            = revalidated Sample.w0.
Proof.
  cbv zeta. split; [reflexivity|]. split; [reflexivity|].
  apply (proj1 (storage_failure_absorbed
                  (Sample.unavailable (Error "connection refused")) Sample.blank
                  (Sample.invoice_form "c1" "50" "pending") "i1")
           Sample.w0
           (insert_of (invoice_row "" "c1" (Number.of_Z 5000) "pending" "2024-03-07"))
           (Error "connection refused"));
    reflexivity.
Defined.

Lemma authenticate_translates_witness :
  let denied := Sample.provider (Throw (AuthError "CredentialsSignin" "bad password")) in
  denied "credentials" [] Sample.w0
    = (Throw (AuthError "CredentialsSignin" "bad password"), Sample.w0)
  ∧ authenticate denied undefined [] Sample.w0
    = (Return (Str "Invalid credentials."), Sample.w0).
Proof.
  cbv zeta. split; [reflexivity|].
  apply (proj1 (proj2 (authenticate_translates
                         (Sample.provider (Throw (AuthError "CredentialsSignin" "bad password")))
                         undefined [] Sample.w0 Sample.w0))
           "bad password").
  reflexivity.
Defined.

Lemma updateInvoice_paid_read_back_witness :
  let form := Sample.invoice_form "c1" "12" "paid" in
  let stored := invoice_row "i1" "c1" (Number.of_Z 1200) "pending" "2024-01-15" in
  invoice_by_id "i1" (db Sample.w0) = Some stored
  ∧ invoice_by_id "i1" (db (updateInvoice (Sample.pg "i3") "i1" Sample.blank form Sample.w0).2)
    = Some (invoice_row "i1" "c1" (Number.of_Z 1200) "paid" "2024-01-15").
Proof.
  cbv zeta. split; [reflexivity|].
  apply (updateInvoice_paid_read_back (Sample.pg "i3") "i1" Sample.blank
           (Sample.invoice_form "c1" "12" "paid") Sample.w0
           (invoice_row "i1" "c1" (Number.of_Z 1200) "pending" "2024-01-15") "c1");
    reflexivity.
Defined.

Lemma customer_writes_carry_strings_witness :
  let form := Sample.customer_form "Eve" "eve@example.com" "/customers/eve.png" in
  completes (Sample.pg "c3") "c3"
    (INSERT_customer (Str "Eve") (Str "eve@example.com") (Str "/customers/eve.png"))
    (db Sample.w0)
  ∧ customers (db (createCustomers (Sample.pg "c3") Sample.blank form Sample.w0).2)
    = (customers Sample.rows ++
         [{| cus_id := "c3"; cus_name := Str "Eve"; cus_email := Str "eve@example.com";
             cus_image_url := Str "/customers/eve.png" |}])%list.
Proof.
  cbv zeta. split; [reflexivity|].
  destruct (customer_writes_carry_strings (Sample.pg "c3") "c1" Sample.blank
              (Sample.customer_form "Eve" "eve@example.com" "/customers/eve.png")
              Sample.w0 "c3")
    as [(n & e & i & Hn & He & Hi & _ & _ & H)|(k & _ & _ & (st & ms & Hr & _) & _)].
  - injection Hn as <-. injection He as <-. injection Hi as <-.
    apply H. reflexivity.
  - discriminate Hr.
Defined.

Lemma deleteCustomers_missing_count_witness :
  Sample.no_rows "c3" (SELECT_pending_count "c2") (db Sample.w0) = fulfilled Sample.rows []
  ∧ deleteCustomers (Sample.no_rows "c3") "c2" Sample.w0 =
      (Return (just_message "Customer deleted successfully."),
       {| db := {| invoices := invoices Sample.rows;
                   customers := List.filter (λ r, negb (cus_id r =? "c2")%string)
                                  (customers Sample.rows) |};
          revalidated := ["/dashboard/customers"];
          issued := [SELECT_pending_count "c2"; DELETE_customer "c2"];
          now := Sample.clock |}).
Proof.
  split; [reflexivity|].
  apply (proj2 (proj2 (deleteCustomers_missing_count (Sample.no_rows "c3") "c2" Sample.w0
                         Sample.rows [] eq_refl (or_introl eq_refl)))
           _ []).
  reflexivity.
Defined.

(* ===================================================================== *)
(** * Further properties of the actions                                   *)
(* ===================================================================== *)

(** ** Doubles: every coerced form entry is a double, and cents stay positive *)

Section MoreRounding.
Local Open Scope Z_scope.

Lemma shr_fexp_wide (p : positive) (e : Z) (l : location) :
  emin Number.prec Number.emax < Zpos (digits2_pos p) + e ->
  0 < shr_m (fst (shr_fexp Number.prec Number.emax (Zpos p) e l))
  /\ emin Number.prec Number.emax <= snd (shr_fexp Number.prec Number.emax (Zpos p) e l).
Proof.
  intros He. unfold shr_fexp, shr.
  assert (Hm : shr_m (shr_record_of_loc (Z.pos p) l) = Zpos p)
    by (destruct l as [|[]]; reflexivity).
  set (n := fexp Number.prec Number.emax (Zdigits2 (Z.pos p) + e) - e).
  assert (Hn : n <= Zpos (digits2_pos p) - 1).
  { subst n. unfold fexp, emin, Number.prec, Number.emax in *. simpl Zdigits2. lia. }
  assert (Hlow : 0 < n \/ emin Number.prec Number.emax <= e).
  { subst n. unfold fexp, emin, Number.prec, Number.emax in *. simpl Zdigits2. lia. }
  assert (Hen : emin Number.prec Number.emax <= e + n).
  { subst n. unfold fexp, emin, Number.prec, Number.emax in *. simpl Zdigits2. lia. }
  destruct n as [|k|k] eqn:Hk; simpl fst; simpl snd; rewrite ?Hm; try lia.
  split; [|lia].
  rewrite iter_shr_1_m by lia. rewrite Hm.
  apply Z.div_str_pos. split; [lia|].
  pose proof (digits2_pos_bound p).
  assert (2 ^ Z.pos k <= 2 ^ (Z.pos (digits2_pos p) - 1)) by (apply Z.pow_le_mono_r; lia).
  lia.
Qed.

Lemma binary_round_aux_wide (s : bool) (p : positive) (e : Z) (l : location) :
  emin Number.prec Number.emax < Zpos (digits2_pos p) + e ->
  (exists m' e', binary_round_aux Number.prec Number.emax s (Zpos p) e l = S754_finite s m' e'
                 /\ emin Number.prec Number.emax <= e')
  \/ binary_round_aux Number.prec Number.emax s (Zpos p) e l = S754_infinity s.
Proof.
  intros He. unfold binary_round_aux.
  destruct (shr_fexp_wide p e l He) as [H1 H2].
  destruct (shr_fexp Number.prec Number.emax (Z.pos p) e l) as [mrs' e'].
  simpl in H1, H2.
  pose proof (round_nearest_even_ge (shr_m mrs') (loc_of_shr_record mrs')) as Hr.
  destruct (round_nearest_even (shr_m mrs') (loc_of_shr_record mrs')) as [|q|q]; try lia.
  destruct (shr_fexp_pos q e' loc_Exact H2) as [H3 H4].
  destruct (shr_fexp Number.prec Number.emax (Z.pos q) e' loc_Exact) as [mrs'' e''].
  simpl in H3, H4.
  destruct (shr_m mrs'') as [|m|m]; try lia.
  destruct (e'' <=? Number.emax - Number.prec); eauto.
Qed.

Lemma shr_fexp_exponent (m e : Z) (l : location) :
  emin Number.prec Number.emax <= snd (shr_fexp Number.prec Number.emax m e l).
Proof.
  unfold shr_fexp, shr.
  set (n := fexp Number.prec Number.emax (Zdigits2 m + e) - e).
  assert (Hn : emin Number.prec Number.emax <= e + n).
  { subst n. unfold fexp, emin, Number.prec, Number.emax. lia. }
  destruct n as [|k|k] eqn:Hk; simpl snd; lia.
Qed.

(** Whatever the mantissa, the rounded result is a double. *)
Lemma binary_round_aux_double (s : bool) (m e : Z) (l : location) :
  is_double (binary_round_aux Number.prec Number.emax s m e l) = true.
Proof.
  unfold binary_round_aux.
  destruct (shr_fexp Number.prec Number.emax m e l) as [mrs' e'].
  pose proof (shr_fexp_exponent
                (round_nearest_even (shr_m mrs') (loc_of_shr_record mrs')) e' loc_Exact) as H.
  destruct (shr_fexp Number.prec Number.emax _ e' loc_Exact) as [mrs'' e''].
  simpl in H.
  destruct (shr_m mrs'') as [|q|q]; try reflexivity.
  destruct (e'' <=? Number.emax - Number.prec); [|reflexivity].
  cbn [is_double]. now apply Z.leb_le.
Qed.

Lemma of_decimal_double (s : bool) (m : N) (e10 : Z) :
  is_double (Number.of_decimal s m e10) = true.
Proof.
  unfold Number.of_decimal. destruct m as [|p]; [reflexivity|].
  destruct e10 as [|k|k]; unfold binary_round;
    repeat match goal with |- context [let '(_, _) := ?x in _] => destruct x end;
    apply binary_round_aux_double.
Qed.

Lemma of_Z_double (z : Z) : is_double (Number.of_Z z) = true.
Proof.
  unfold Number.of_Z, binary_normalize, binary_round.
  destruct z; [reflexivity | |];
    repeat match goal with |- context [let '(_, _) := ?x in _] => destruct x end;
    apply binary_round_aux_double.
Qed.

Lemma StringToNumber_double (s : string) : is_double (StringToNumber s) = true.
Proof.
  assert (Hu : forall neg t, is_double (unsigned_decimal neg t) = true).
  { intros neg t. unfold unsigned_decimal.
    destruct (t =? "Infinity")%string; [reflexivity|].
    destruct (read_digits 10 t 0 0) as [[m1 n1] r1].
    destruct (match r1 with String "." r => read_digits 10 r m1 0 | _ => (m1, 0%N, r1) end)
      as [[m n2] r2].
    destruct ((n1 =? 0)%N && (n2 =? 0)%N); [reflexivity|].
    destruct (exponent_part r2); [apply of_decimal_double | reflexivity]. }
  assert (Hn : forall radix t, is_double (non_decimal radix t) = true).
  { intros radix t. unfold non_decimal.
    destruct (read_digits radix t 0 0) as [[v n] r].
    destruct n; [reflexivity|]. destruct r; [apply of_Z_double | reflexivity]. }
  unfold StringToNumber.
  repeat match goal with
         | |- is_double (match ?x with _ => _ end) = true => destruct x
         | |- is_double (if ?x then _ else _) = true => destruct x
         end; solve [reflexivity | apply Hu | apply Hn].
Qed.

(** The product of a positive double with [100] is positive: it cannot
    underflow to zero. *)
Lemma times_100_positive (x : number) :
  is_double x = true ->
  Number.ltb (Number.of_Z 0) x = true ->
  Number.ltb (Number.of_Z 0) (Number.mul x (Number.of_Z 100)) = true.
Proof.
  intros Hd Hx. destruct x as [s|s| |s m e]; try discriminate;
    destruct s; try discriminate; [reflexivity|].
  cbn [is_double] in Hd. apply Z.leb_le in Hd.
  change (Number.of_Z 100) with (S754_finite false 7036874417766400 (-46)).
  unfold Number.mul, SFmul. cbn [xorb].
  assert (Hw : emin Number.prec Number.emax
               < Zpos (digits2_pos (m * 7036874417766400)) + (e + -46)).
  { assert (52 < Zpos (digits2_pos (m * 7036874417766400))).
    { apply digits2_pos_ge; [lia|]. rewrite Pos2Z.inj_mul.
      change (2 ^ 52) with 4503599627370496. nia. }
    unfold emin, Number.prec, Number.emax in *. lia. }
  destruct (binary_round_aux_wide false _ _ loc_Exact Hw) as [(m' & e' & -> & _)| ->];
    reflexivity.
Qed.

End MoreRounding.

(** ** What a failed validation reports, field by field *)

Lemma fieldErrors_of_failure (shape : ZodObject) (input : gmap string value)
    (issues : list Zod.ZodIssue) :
  safeParse shape input = failure issues →
  ∀ key, fieldErrors issues !! key
         = match field_messages shape input key with [] => None | ms => Some ms end.
Proof.
  intros Hs key.
  destruct (safeParse_cases shape input) as [(data & H & _)|(issues' & H & _ & Hp)];
    rewrite Hs in H; [discriminate|]. injection H as <-.
  now rewrite fieldErrors_lookup, <- Hp, messages_under_object.
Qed.

Lemma success_iff_no_messages (shape : ZodObject) (input : gmap string value) :
  (∃ data, safeParse shape input = success data)
  ↔ ∀ key, field_messages shape input key = [].
Proof.
  split.
  - intros [data Hs] key.
    destruct (safeParse_cases shape input) as [(data' & _ & Hp)|(issues & H & _)];
      [|rewrite Hs in H; discriminate].
    now rewrite <- messages_under_object, Hp.
  - intros Hall.
    destruct (safeParse_cases shape input) as [(data & H & _)|(issues & _ & Hne & Hp)];
      [eauto|].
    exfalso. destruct issues as [|i issues]; [congruence|].
    specialize (Hall (Zod.path i)).
    rewrite <- messages_under_object, Hp in Hall.
    unfold messages_under in Hall. cbn [List.filter] in Hall.
    rewrite String.eqb_refl in Hall. discriminate.
Qed.

Lemma invoice_field_messages (fd : FormData) (key : string) :
  field_messages CreateInvoice (invoice_fields fd) key = invoice_messages fd key.
Proof.
  unfold field_messages, invoice_messages. rewrite (proj1 invoice_shape).
  cbn [flat_map fst snd].
  destruct (invoice_fields_lookup fd) as (-> & -> & ->). cbn [default from_option id].
  rewrite amount_field. unfold z_string, z_enum. cbn [Zod.parse_field].
  destruct ("customerId" =? key) eqn:Ec.
  { apply String.eqb_eq in Ec. subst key. cbn [String.eqb Ascii.eqb Bool.eqb].
    rewrite !app_nil_r. now destruct (get fd "customerId"). }
  destruct ("amount" =? key) eqn:Ea.
  { apply String.eqb_eq in Ea. subst key. cbn [String.eqb Ascii.eqb Bool.eqb app].
    rewrite app_nil_r. unfold amount_messages. cbv zeta.
    destruct (Number.isNaN _); [reflexivity|]. now destruct (Number.leb _ _). }
  destruct ("status" =? key) eqn:Es; [|reflexivity].
  cbn [app]. rewrite app_nil_r. unfold status_messages.
  destruct (get fd "status") as [| |b|x|s|c]; try reflexivity.
  now destruct (bool_decide (s ∈ ["pending"; "paid"])).
Qed.

Lemma customer_field_messages (fd : FormData) (key : string) :
  field_messages CreateCustomers (customer_fields fd) key = customer_messages fd key.
Proof.
  unfold field_messages, customer_messages. rewrite (proj1 customer_shape).
  cbn [flat_map fst snd].
  rewrite !customer_fields_lookup by set_solver. cbn [default from_option id].
  unfold z_string. cbn [Zod.parse_field].
  assert (Hm : ∀ k v, map Zod.message
                 (match v with
                  | Str _ => ([], Some v)
                  | _ => ([Zod.issue Zod.invalid_type k
                             (Zod.customMap no_params Zod.invalid_type v
                                (Zod.invalid_type_default "string" (Zod.getParsedType v)))],
                          None)
                  end).1 = text_messages v).
  { intros k v. destruct v as [| |b|x|s|c]; try reflexivity.
    cbn. now destruct (Number.isNaN x). }
  rewrite !Hm.
  destruct ("name" =? key) eqn:En.
  { apply String.eqb_eq in En. subst key. cbn [String.eqb Ascii.eqb Bool.eqb].
    rewrite bool_decide_eq_true_2 by set_solver. now rewrite !app_nil_r. }
  destruct ("email" =? key) eqn:Ee.
  { apply String.eqb_eq in Ee. subst key. cbn [String.eqb Ascii.eqb Bool.eqb app].
    rewrite bool_decide_eq_true_2 by set_solver. now rewrite !app_nil_r. }
  destruct ("image_url" =? key) eqn:Ei.
  { apply String.eqb_eq in Ei. subst key.
    rewrite bool_decide_eq_true_2 by set_solver. cbn [app]. now rewrite !app_nil_r. }
  rewrite bool_decide_eq_false_2; [reflexivity|].
  rewrite !elem_of_cons, elem_of_nil.
  apply String.eqb_neq in En, Ee, Ei. intros [->|[->|[->|[]]]]; congruence.
Qed.

(** X1. When some invoice field is invalid, [createInvoice] and
    [updateInvoice] return, without touching the world, their "Missing
    Fields" message and a field errors object that has, under each of
    [customerId], [amount] and [status], exactly the one message that field
    raises, and no entry for a valid field or any other key. A wrong status
    text gets zod's enum message, not the schema's own, which is kept for a
    missing or non-text status. *)
Theorem invoice_errors_exact sql id prev fd w :
  (∃ key, invoice_messages fd key ≠ []) →
  ∃ st st',
    createInvoice sql prev fd w = (Return st, w)
    ∧ message st = Some "Missing Fields. Failed to Create Invoice."
    ∧ carries st (invoice_messages fd)
    ∧ updateInvoice sql id prev fd w = (Return st', w)
    ∧ message st' = Some "Missing Fields. Failed to Update Invoice."
    ∧ carries st' (invoice_messages fd).
Proof.
  intros [key Hne]. rewrite <- invoice_field_messages in Hne.
  destruct (failure_of_field_messages _ _ _ Hne) as (issues & Hs & _).
  pose proof (fieldErrors_of_failure _ _ _ Hs) as Hfe.
  rewrite createInvoice_run, updateInvoice_run, (proj2 invoice_shape), Hs.
  eexists _, _. repeat split; try reflexivity;
    (eexists; split; [reflexivity|]; intros k; rewrite Hfe, invoice_field_messages;
     reflexivity).
Qed.

(** X2. When one of [name], [email], [image_url] is not a string,
    [createCustomers] and [updateCustomers] return, without touching the
    world, their "Missing Fields" message and a field errors object with
    zod's "Expected string, received ..." message under exactly the fields
    that are not strings. *)
Theorem customer_errors_exact sql id prev fd w :
  (∃ key, customer_messages fd key ≠ []) →
  ∃ st st',
    createCustomers sql prev fd w = (Return st, w)
    ∧ message st = Some "Missing Fields. Failed to Create Customers."
    ∧ carries st (customer_messages fd)
    ∧ updateCustomers sql id prev fd w = (Return st', w)
    ∧ message st' = Some "Missing Fields. Failed to Update customers."
    ∧ carries st' (customer_messages fd).
Proof.
  intros [key Hne]. rewrite <- customer_field_messages in Hne.
  destruct (failure_of_field_messages _ _ _ Hne) as (issues & Hs & _).
  pose proof (fieldErrors_of_failure _ _ _ Hs) as Hfe.
  rewrite createCustomers_run, updateCustomers_run, (proj2 customer_shape), Hs.
  eexists _, _. repeat split; try reflexivity;
    (eexists; split; [reflexivity|]; intros k; rewrite Hfe, customer_field_messages;
     reflexivity).
Qed.

(** ** What reaches the store *)

Lemma passes_gt0 (x : number) :
  Number.isNaN x = false → Number.leb x (Number.of_Z 0) = false →
  Number.ltb (Number.of_Z 0) x = true.
Proof. destruct x as [s|s| |s m e]; try discriminate; destruct s; try discriminate; reflexivity. Qed.

Lemma valid_invoice_form_inv (fd : FormData) :
  valid_invoice_form fd = true →
  ∃ c s, get fd "customerId" = Str c ∧ get fd "status" = Str s
         ∧ s ∈ ["pending"; "paid"]
         ∧ Number.ltb (Number.of_Z 0) (ToNumber (get fd "amount")) = true.
Proof.
  unfold valid_invoice_form.
  destruct (get fd "customerId") as [| |b|x|c|o]; try discriminate.
  destruct (get fd "status") as [| |b|x|s|o]; try discriminate.
  intros H. apply andb_prop in H as [Ha Hs]. apply bool_decide_eq_true in Hs. eauto 10.
Qed.

Lemma no_messages_valid (fd : FormData) :
  (∀ key, invoice_messages fd key = []) → valid_invoice_form fd = true.
Proof.
  intros H. pose proof (H "customerId") as Hc. pose proof (H "amount") as Ha.
  pose proof (H "status") as Hs.
  unfold invoice_messages in Hc, Ha, Hs. cbn [String.eqb Ascii.eqb Bool.eqb] in Hc, Ha, Hs.
  unfold valid_invoice_form, customerId_messages, amount_messages, status_messages in *.
  destruct (get fd "customerId") as [| |b|x|c|o]; try discriminate.
  destruct (get fd "status") as [| |b|x|s|o]; try discriminate.
  cbv zeta in Ha.
  destruct (Number.isNaN _) eqn:En; [discriminate|].
  destruct (Number.leb _ _) eqn:El; [discriminate|].
  rewrite (passes_gt0 _ En El).
  now destruct (bool_decide (s ∈ ["pending"; "paid"])).
Qed.

Lemma invalid_invoice_form_fails (fd : FormData) :
  valid_invoice_form fd = false →
  ∃ issues, safeParse CreateInvoice (invoice_fields fd) = failure issues.
Proof.
  intros Hv. destruct (safeParse CreateInvoice (invoice_fields fd)) as [data|issues] eqn:Hs;
    [|eauto].
  exfalso. assert (He : ∃ d, safeParse CreateInvoice (invoice_fields fd) = success d) by eauto.
  pose proof (proj1 (success_iff_no_messages _ _) He) as Hall.
  rewrite no_messages_valid in Hv; [discriminate|].
  intros key. now rewrite <- invoice_field_messages.
Qed.

(** X3. [createInvoice] and [updateInvoice] hand the store a statement if
    and only if the customer is a string, the amount coerces to a number
    greater than zero and the status is one of the two allowed; the
    statement then carries the customer and status as submitted, the amount
    times 100, and for an insert the clock's day. Otherwise the world is
    left exactly as it was. *)
Theorem invoice_store_traffic sql id prev fd w :
  let cents := Num (Number.mul (ToNumber (get fd "amount")) (Number.of_Z 100)) in
  issued (createInvoice sql prev fd w).2
  = (if valid_invoice_form fd
     then (issued w ++ [INSERT_invoice (get fd "customerId") cents (get fd "status")
                          (Str (Date.iso_day (now w)))])%list
     else issued w)
  ∧ issued (updateInvoice sql id prev fd w).2
    = (if valid_invoice_form fd
       then (issued w ++ [UPDATE_invoice (get fd "customerId") cents (get fd "status") id])%list
       else issued w)
  ∧ (valid_invoice_form fd = false →
     (createInvoice sql prev fd w).2 = w ∧ (updateInvoice sql id prev fd w).2 = w).
Proof.
  cbv zeta. rewrite createInvoice_run, updateInvoice_run, (proj2 invoice_shape).
  destruct (valid_invoice_form fd) eqn:Hv.
  - destruct (valid_invoice_form_inv fd Hv) as (c & s & Hc & Hs & Hin & Ha).
    destruct (invoice_accepted fd c s Hc Ha Hs Hin) as (data & Hp & Dc & Da & Ds).
    rewrite Hp. unfold write_then_redirect, insert_invoice_of, update_invoice_of.
    rewrite Dc, Da, Ds, Hc, Hs.
    change (times (Num ?x) (Num ?y)) with (Num (Number.mul x y)).
    repeat split; try discriminate; now destruct (sql _ _).
  - destruct (invalid_invoice_form_fails fd Hv) as [issues ->]. now repeat split.
Qed.

(** ** The invoice invariant is kept *)

Lemma get_submitted (fd : FormData) (k : string) :
  submitted fd → get fd k = null ∨ FormDataEntryValue (get fd k) = true.
Proof.
  unfold submitted. induction 1 as [|[k' v] fd Hv _ IH]; [now left|].
  cbn [get]. destruct (k' =? k)%string; [now right | exact IH].
Qed.

Lemma ToNumber_submitted (fd : FormData) (k : string) :
  submitted fd → is_double (ToNumber (get fd k)) = true.
Proof.
  intros H. destruct (get_submitted fd k H) as [-> | Hv]; [reflexivity|].
  destruct (get fd k); try discriminate; [apply StringToNumber_double | reflexivity].
Qed.

Lemma valid_form_sound_row (fd : FormData) (id : string) (d : value) :
  submitted fd → valid_invoice_form fd = true →
  sound_invoice {| inv_id := id; inv_customer_id := get fd "customerId";
                   inv_amount := Num (Number.mul (ToNumber (get fd "amount")) (Number.of_Z 100));
                   inv_status := get fd "status"; inv_date := d |} = true.
Proof.
  intros Hsub Hv. destruct (valid_invoice_form_inv fd Hv) as (c & s & Hc & Hs & Hin & Ha).
  unfold sound_invoice. cbn [inv_customer_id inv_amount inv_status]. rewrite Hc, Hs.
  rewrite (times_100_positive _ (ToNumber_submitted fd "amount" Hsub) Ha).
  rewrite !elem_of_cons, elem_of_nil in Hin. destruct Hin as [->|[->|[]]]; reflexivity.
Qed.

Lemma set_invoice_sound c a st id (r : invoice) :
  sound_write (UPDATE_invoice c a st id) = true →
  sound_invoice r = true → sound_invoice (set_invoice c a st id r) = true.
Proof. intros Hw Hr. unfold set_invoice. now destruct (inv_id r =? id)%string. Qed.

Lemma run_keeps_sound (fresh : string) (s : statement) (d : database) :
  sound_write s = true →
  Forall (λ r, sound_invoice r = true) (invoices d) →
  Forall (λ r, sound_invoice r = true) (invoices (run fresh s d).1).
Proof.
  intros Hw Hd. destruct s; cbn [run fst invoices]; try exact Hd.
  - apply Forall_app. split; [exact Hd|]. now repeat constructor.
  - apply Forall_forall. intros r' Hr'. apply list_elem_of_In, in_map_iff in Hr'.
    destruct Hr' as (r & <- & Hr). apply set_invoice_sound; [exact Hw|].
    rewrite Forall_forall in Hd. apply Hd. now apply list_elem_of_In.
  - apply Forall_forall. intros r Hr. apply list_elem_of_In, filter_In in Hr.
    rewrite Forall_forall in Hd. apply Hd. now apply list_elem_of_In.
Qed.

Lemma sql_keeps_sound sql (s : statement) (d : database) :
  relational sql → sound_write s = true →
  Forall (λ r, sound_invoice r = true) (invoices d) →
  match sql s d with
  | fulfilled d' _ => Forall (λ r, sound_invoice r = true) (invoices d')
  | rejected _ => True
  end.
Proof.
  intros Hrel Hw Hd. destruct (sql s d) as [d' rows|e] eqn:E; [|exact I].
  destruct (Hrel _ _ _ _ E) as [fresh Hrun].
  replace d' with (run fresh s d).1 by now rewrite <- Hrun.
  now apply run_keeps_sound.
Qed.

Lemma write_then_redirect_keeps_sound sql (s : statement) (prefix p : string) (w : world) :
  relational sql → sound_write s = true →
  Forall (λ r, sound_invoice r = true) (invoices (db w)) →
  Forall (λ r, sound_invoice r = true)
    (invoices (db (write_then_redirect sql s prefix p w).2)).
Proof.
  intros Hrel Hw Hd. pose proof (sql_keeps_sound sql s (db w) Hrel Hw Hd) as H.
  unfold write_then_redirect. now destruct (sql s (db w)).
Qed.

(** X4. The invoice invariant is kept by all six operations: on a store
    with relational effects and for a form as a browser submits it, if
    every invoice row has a string customer, an amount greater than zero and
    status [pending] or [paid], the same holds afterwards, whatever the
    form and whether or not the store rejects. In particular the amount in
    cents of a positive amount never rounds down to zero. *)
Theorem invoices_stay_sound sql id prev fd w :
  relational sql → submitted fd →
  Forall (λ r, sound_invoice r = true) (invoices (db w)) →
  Forall (λ r, sound_invoice r = true) (invoices (db (createInvoice sql prev fd w).2))
  ∧ Forall (λ r, sound_invoice r = true) (invoices (db (updateInvoice sql id prev fd w).2))
  ∧ Forall (λ r, sound_invoice r = true) (invoices (db (deleteInvoice sql id w).2))
  ∧ Forall (λ r, sound_invoice r = true) (invoices (db (createCustomers sql prev fd w).2))
  ∧ Forall (λ r, sound_invoice r = true) (invoices (db (updateCustomers sql id prev fd w).2))
  ∧ Forall (λ r, sound_invoice r = true) (invoices (db (deleteCustomers sql id w).2)).
Proof.
  intros Hrel Hsub Hd.
  rewrite createInvoice_run, updateInvoice_run, deleteInvoice_run, createCustomers_run,
    updateCustomers_run, deleteCustomers_run, (proj2 invoice_shape).
  repeat apply conj.
  - destruct (valid_invoice_form fd) eqn:Hv.
    + destruct (valid_invoice_form_inv fd Hv) as (c & s & Hc & Hs & Hin & Ha).
      destruct (invoice_accepted fd c s Hc Ha Hs Hin) as (data & -> & Dc & Da & Ds).
      apply write_then_redirect_keeps_sound; [exact Hrel| |exact Hd].
      unfold insert_invoice_of, sound_write. rewrite Dc, Da, Ds, <- Hc, <- Hs.
      now apply valid_form_sound_row.
    + now destruct (invalid_invoice_form_fails fd Hv) as [issues ->].
  - destruct (valid_invoice_form fd) eqn:Hv.
    + destruct (valid_invoice_form_inv fd Hv) as (c & s & Hc & Hs & Hin & Ha).
      destruct (invoice_accepted fd c s Hc Ha Hs Hin) as (data & -> & Dc & Da & Ds).
      apply write_then_redirect_keeps_sound; [exact Hrel| |exact Hd].
      unfold update_invoice_of, sound_write. rewrite Dc, Da, Ds, <- Hc, <- Hs.
      now apply valid_form_sound_row.
    + now destruct (invalid_invoice_form_fails fd Hv) as [issues ->].
  - pose proof (sql_keeps_sound sql (DELETE_invoice id) (db w) Hrel eq_refl Hd) as H.
    now destruct (sql (DELETE_invoice id) (db w)).
  - destruct (safeParse CreateCustomers _); [|exact Hd].
    now apply write_then_redirect_keeps_sound.
  - destruct (safeParse UpdateCustomer _); [|exact Hd].
    now apply write_then_redirect_keeps_sound.
  - cbv zeta.
    pose proof (sql_keeps_sound sql (SELECT_pending_count id) (db w) Hrel eq_refl Hd) as H.
    destruct (sql (SELECT_pending_count id) (db w)) as [d rows|e]; [|exact Hd].
    destruct (gt_num _ _); [exact H|].
    pose proof (sql_keeps_sound sql (DELETE_customer id) d Hrel eq_refl H) as H'.
    now destruct (sql (DELETE_customer id) d).
Qed.

(** ** Deleting, updating and reading back *)

Lemma find_filter_other {A} (key : A → string) (id id' : string) (l : list A) :
  id' ≠ id →
  List.find (λ r, (key r =? id')%string) (List.filter (λ r, negb (key r =? id)%string) l)
  = List.find (λ r, (key r =? id')%string) l.
Proof.
  intros Hne. induction l as [|r l IH]; [reflexivity|]. cbn [List.filter List.find].
  destruct (key r =? id)%string eqn:E; cbn [negb List.find].
  - apply String.eqb_eq in E. rewrite E.
    replace (id =? id')%string with false by (symmetry; apply String.eqb_neq; congruence).
    exact IH.
  - now rewrite IH.
Qed.

Lemma find_filter_same {A} (key : A → string) (id : string) (l : list A) :
  List.find (λ r, (key r =? id)%string) (List.filter (λ r, negb (key r =? id)%string) l)
  = None.
Proof.
  induction l as [|r l IH]; [reflexivity|]. cbn [List.filter].
  destruct (key r =? id)%string eqn:E; cbn [negb]; [exact IH|].
  cbn [List.find]. now rewrite E.
Qed.

Lemma filter_absent {A} (key : A → string) (id : string) (l : list A) :
  List.find (λ r, (key r =? id)%string) l = None →
  List.filter (λ r, negb (key r =? id)%string) l = l.
Proof.
  induction l as [|r l IH]; [reflexivity|]. cbn [List.find List.filter].
  destruct (key r =? id)%string; [discriminate|]. intros H. cbn [negb]. now rewrite IH.
Qed.

(** X5. When the store completes the delete, [deleteInvoice] returns
    "Deleted Invoice." (it does not redirect), the invoice can no longer be
    read back, every other invoice and all customers are as before, and the
    invoices listing is marked stale. Deleting an identifier that is not
    there changes no row and is answered the same way. *)
Theorem deleteInvoice_removes sql id w :
  completes sql "" (DELETE_invoice id) (db w) →
  ∃ w', deleteInvoice sql id w = (Return (just_message "Deleted Invoice."), w')
        ∧ invoice_by_id id (db w') = None
        ∧ (∀ id', id' ≠ id → invoice_by_id id' (db w') = invoice_by_id id' (db w))
        ∧ customers (db w') = customers (db w)
        ∧ revalidated w' = (revalidated w ++ ["/dashboard/invoices"])%list
        ∧ (invoice_by_id id (db w) = None → db w' = db w).
Proof.
  unfold completes. cbn [run fst snd]. intros Hc.
  rewrite deleteInvoice_run, Hc. eexists. split; [reflexivity|].
  unfold invoice_by_id. cbn [after_write db invoices customers revalidated].
  repeat split.
  - apply (find_filter_same inv_id).
  - intros id' Hne. now apply (find_filter_other inv_id).
  - intros Hnone. rewrite (filter_absent inv_id) by exact Hnone. now destruct (db w).
Qed.

Lemma find_map_other c a s id id' (l : list invoice) :
  id' ≠ id →
  List.find (λ r, (inv_id r =? id')%string) (map (set_invoice c a s id) l)
  = List.find (λ r, (inv_id r =? id')%string) l.
Proof.
  intros Hne. induction l as [|r l IH]; [reflexivity|]. cbn [map List.find].
  rewrite set_invoice_id, IH. destruct (inv_id r =? id')%string eqn:E; [|reflexivity].
  unfold set_invoice. apply String.eqb_eq in E.
  replace (inv_id r =? id)%string with false; [reflexivity|].
  symmetry. apply String.eqb_neq. congruence.
Qed.

Lemma map_set_absent c a s id (l : list invoice) :
  List.find (λ r, (inv_id r =? id)%string) l = None →
  map (set_invoice c a s id) l = l.
Proof.
  induction l as [|r l IH]; [reflexivity|]. cbn [List.find map]. unfold set_invoice at 1.
  destruct (inv_id r =? id)%string; [discriminate|]. intros H. now rewrite IH.
Qed.

(** X6. A completed [updateInvoice] touches only the invoice with the
    given identifier: every other invoice reads back as before, no row is
    added or removed, customers are untouched. For an identifier that is
    not there no row changes, yet the listing is still marked stale and the
    action redirects. *)
Theorem updateInvoice_frame sql id prev fd w :
  valid_invoice_form fd = true →
  completes sql ""
    (UPDATE_invoice (get fd "customerId")
       (Num (Number.mul (ToNumber (get fd "amount")) (Number.of_Z 100)))
       (get fd "status") id) (db w) →
  ∃ w', updateInvoice sql id prev fd w = (Throw (RedirectError "/dashboard/invoices"), w')
        ∧ (∀ id', id' ≠ id → invoice_by_id id' (db w') = invoice_by_id id' (db w))
        ∧ length (invoices (db w')) = length (invoices (db w))
        ∧ customers (db w') = customers (db w)
        ∧ revalidated w' = (revalidated w ++ ["/dashboard/invoices"])%list
        ∧ (invoice_by_id id (db w) = None → db w' = db w).
Proof.
  intros Hv Hsql. destruct (valid_invoice_form_inv fd Hv) as (c & s & Hc & Hs & Hin & Ha).
  destruct (invoice_accepted fd c s Hc Ha Hs Hin) as (data & Hp & Dc & Da & Ds).
  rewrite updateInvoice_run, (proj2 invoice_shape), Hp.
  unfold write_then_redirect, update_invoice_of. rewrite Dc, Da, Ds, <- Hc, <- Hs.
  change (times (Num ?x) (Num ?y)) with (Num (Number.mul x y)).
  unfold completes in Hsql. rewrite Hsql. cbn [run fst snd].
  eexists. split; [reflexivity|].
  unfold invoice_by_id. cbn [after_write db invoices customers revalidated].
  repeat split.
  - intros id' Hne. now apply find_map_other.
  - apply length_map.
  - intros Hnone. rewrite map_set_absent by exact Hnone. now destruct (db w).
Qed.

Lemma find_key {A} (key : A → string) (id : string) (l : list A) (r : A) :
  List.find (λ r, (key r =? id)%string) l = Some r → key r = id.
Proof. intros H. apply find_some in H as [_ H]. now apply String.eqb_eq. Qed.

Lemma set_customer_id n e i id (r : customer) : cus_id (set_customer n e i id r) = cus_id r.
Proof. unfold set_customer. now destruct (cus_id r =? id)%string. Qed.

Lemma find_set_customer n e i id (l : list customer) :
  List.find (λ r, (cus_id r =? id)%string) (map (set_customer n e i id) l)
  = match List.find (λ r, (cus_id r =? id)%string) l with
    | Some _ => Some {| cus_id := id; cus_name := n; cus_email := e; cus_image_url := i |}
    | None => None
    end.
Proof.
  induction l as [|r l IH]; [reflexivity|]. cbn [map List.find].
  rewrite set_customer_id. destruct (cus_id r =? id)%string eqn:E; [|exact IH].
  unfold set_customer. rewrite E. apply String.eqb_eq in E. now rewrite E.
Qed.

Lemma find_set_customer_other n e i id id' (l : list customer) :
  id' ≠ id →
  List.find (λ r, (cus_id r =? id')%string) (map (set_customer n e i id) l)
  = List.find (λ r, (cus_id r =? id')%string) l.
Proof.
  intros Hne. induction l as [|r l IH]; [reflexivity|]. cbn [map List.find].
  rewrite set_customer_id, IH. destruct (cus_id r =? id')%string eqn:E; [|reflexivity].
  unfold set_customer. apply String.eqb_eq in E.
  replace (cus_id r =? id)%string with false; [reflexivity|].
  symmetry. apply String.eqb_neq. congruence.
Qed.

(** X7. A completed [updateCustomers] with three strings redirects to the
    customers listing after marking it stale; the customer with the given
    identifier, if there is one, reads back with exactly the submitted
    name, email and image, every other customer and all invoices are as
    before, and an unknown identifier changes nothing. *)
Theorem updateCustomers_writes sql id prev fd w n e i :
  get fd "name" = Str n → get fd "email" = Str e → get fd "image_url" = Str i →
  completes sql "" (UPDATE_customer (Str n) (Str e) (Str i) id) (db w) →
  ∃ w', updateCustomers sql id prev fd w = (Throw (RedirectError "/dashboard/customers"), w')
        ∧ customer_by_id id (db w')
          = match customer_by_id id (db w) with
            | Some _ => Some {| cus_id := id; cus_name := Str n; cus_email := Str e;
                                cus_image_url := Str i |}
            | None => None
            end
        ∧ (∀ id', id' ≠ id → customer_by_id id' (db w') = customer_by_id id' (db w))
        ∧ invoices (db w') = invoices (db w)
        ∧ revalidated w' = (revalidated w ++ ["/dashboard/customers"])%list.
Proof.
  intros Hn He Hi Hsql.
  destruct (customer_accepted fd n e i Hn He Hi) as (data & Hp & Dn & De & Di).
  rewrite updateCustomers_run, (proj2 customer_shape), Hp.
  unfold write_then_redirect, update_customer_of. rewrite Dn, De, Di.
  unfold completes in Hsql. rewrite Hsql. cbn [run fst snd].
  eexists. split; [reflexivity|].
  unfold customer_by_id. cbn [after_write db invoices customers revalidated].
  repeat split.
  - apply find_set_customer.
  - intros id' Hne. now apply find_set_customer_other.
Qed.

(** ** The guard of [deleteCustomers] *)

Lemma guard_reads_cell (rows : list row) :
  gt_num (pendingInvoices_of rows) (Number.of_Z 0)
  = Number.ltb (Number.of_Z 0) (ToNumber (count_cell rows)).
Proof.
  unfold pendingInvoices_of. fold (count_cell rows). unfold JS.or, gt_num.
  destruct (ToBoolean (count_cell rows)) eqn:Hb; [reflexivity|].
  destruct (count_cell rows) as [| |b|x|s|c]; try discriminate; try reflexivity.
  - now destruct b.
  - now destruct x.
  - destruct s; [reflexivity | discriminate].
Qed.

(** X8. The guard of [deleteCustomers] depends only on the [count] cell of
    the first row. For a cell that is no object (text, a number, a boolean,
    [null] or absent) the delete is refused exactly when the cell coerces to
    a number greater than zero, and is issued in every other case, also when
    the cell is text that is not a number. The [|| 0] default never changes
    the outcome. *)
Theorem guard_follows_count_cell sql id w d rows :
  sql (SELECT_pending_count id) (db w) = fulfilled d rows →
  primitive (count_cell rows) = true →
  (Number.ltb (Number.of_Z 0) (ToNumber (count_cell rows)) = true →
     deleteCustomers sql id w =
       (Return (just_message "no se elimino"),
        {| db := d; revalidated := revalidated w;
           issued := (issued w ++ [SELECT_pending_count id])%list; now := now w |}))
  ∧ (Number.ltb (Number.of_Z 0) (ToNumber (count_cell rows)) = false →
     issued (deleteCustomers sql id w).2
     = (issued w ++ [SELECT_pending_count id; DELETE_customer id])%list).
Proof.
  intros Hs _. rewrite deleteCustomers_run, Hs. cbv zeta. rewrite guard_reads_cell.
  split; intros ->; [reflexivity|].
  destruct (sql (DELETE_customer id) d); cbn; now rewrite <- app_assoc.
Qed.

Lemma deleteCustomers_blocked sql id w :
  completes sql "" (SELECT_pending_count id) (db w) →
  (0 < pending_count id (db w))%N →
  deleteCustomers sql id w =
    (Return (just_message "no se elimino"), after_call w (db w) (SELECT_pending_count id)).
Proof.
  unfold completes. cbn [run fst snd]. intros Hc Hpos.
  rewrite deleteCustomers_run, Hc. cbv zeta. rewrite pending_observed.
  apply N.ltb_lt in Hpos. now rewrite Hpos.
Qed.

Lemma deleteCustomers_proceeds sql id w :
  completes sql "" (SELECT_pending_count id) (db w) →
  pending_count id (db w) = 0%N →
  completes sql "" (DELETE_customer id) (db w) →
  deleteCustomers sql id w =
    (Return (just_message "Customer deleted successfully."),
     {| db := {| invoices := invoices (db w);
                 customers := List.filter (λ r, negb (cus_id r =? id)%string)
                                (customers (db w)) |};
        revalidated := revalidated w ++ ["/dashboard/customers"];
        issued := issued w ++ [SELECT_pending_count id; DELETE_customer id];
        now := now w |}).
Proof.
  unfold completes. cbn [run fst snd]. intros Hc H0 Hd.
  rewrite deleteCustomers_run, Hc. cbv zeta. rewrite pending_observed, H0.
  cbn [N.ltb N.compare]. rewrite Hd. unfold after_write, after_call. cbn.
  now rewrite <- app_assoc.
Qed.

(** X9. [deleteCustomers] on an identifier no customer has (and no pending
    invoice refers to) reports success, marks the customers listing stale
    and leaves every row as it was. *)
Theorem deleteCustomers_unknown_id sql id w :
  customer_by_id id (db w) = None →
  pending_count id (db w) = 0%N →
  completes sql "" (SELECT_pending_count id) (db w) →
  completes sql "" (DELETE_customer id) (db w) →
  ∃ w', deleteCustomers sql id w =
          (Return (just_message "Customer deleted successfully."), w')
        ∧ db w' = db w
        ∧ revalidated w' = (revalidated w ++ ["/dashboard/customers"])%list.
Proof.
  intros Hnone H0 Hc Hd. rewrite (deleteCustomers_proceeds sql id w Hc H0 Hd).
  eexists. split; [reflexivity|]. cbn [db revalidated]. split; [|reflexivity].
  unfold customer_by_id in Hnone. rewrite (filter_absent cus_id) by exact Hnone.
  now destruct (db w).
Qed.

(** ** How the operations compose *)

Lemma pending_count_app (id : string) (d : database) (r : invoice) :
  pending_count id {| invoices := invoices d ++ [r]; customers := customers d |}
  = (pending_count id d + (if is_pending_of id r then 1 else 0))%N.
Proof.
  unfold pending_count. cbn [invoices]. rewrite List.filter_app, length_app.
  cbn [List.filter]. destruct (is_pending_of id r); cbn [length]; lia.
Qed.

(** X10. After [createInvoice] stored a [pending] invoice for a customer,
    [deleteCustomers] for that customer answers "no se elimino" and changes
    neither rows nor cache. *)
Theorem pending_invoice_blocks_delete sql prev fd w fresh c :
  get fd "customerId" = Str c →
  Number.ltb (Number.of_Z 0) (ToNumber (get fd "amount")) = true →
  get fd "status" = Str "pending" →
  let row := invoice_row fresh c
               (Number.mul (ToNumber (get fd "amount")) (Number.of_Z 100)) "pending"
               (Date.iso_day (now w)) in
  completes sql fresh (insert_of row) (db w) →
  let w1 := (createInvoice sql prev fd w).2 in
  completes sql "" (SELECT_pending_count c) (db w1) →
  ∃ w2, deleteCustomers sql c w1 = (Return (just_message "no se elimino"), w2)
        ∧ db w2 = db w1
        ∧ customers (db w2) = customers (db w)
        ∧ revalidated w2 = revalidated w1.
Proof.
  intros Hc Ha Hs row Hins w1.
  assert (Hw1 : db w1 = {| invoices := invoices (db w) ++ [row];
                           customers := customers (db w) |}).
  { subst w1. rewrite (createInvoice_stores_row sql prev w fresh fd c "pending" Hc Ha Hs
                         ltac:(set_solver) Hins). reflexivity. }
  intros Hsel. rewrite (deleteCustomers_blocked sql c w1 Hsel).
  - eexists. split; [reflexivity|]. cbn [after_call db revalidated]. rewrite Hw1.
    repeat split.
  - rewrite Hw1, pending_count_app.
    replace (is_pending_of c row) with true; [lia|].
    unfold is_pending_of, row, invoice_row. cbn [inv_customer_id inv_status].
    now rewrite !bool_decide_eq_true_2.
Qed.

Lemma pending_count_paid c a id cid (l : list invoice) (customers0 : list customer) :
  (∀ r, r ∈ l → is_pending_of cid r = true → inv_id r = id) →
  pending_count cid {| invoices := map (set_invoice c a (Str "paid") id) l;
                       customers := customers0 |} = 0%N.
Proof.
  intros Hall. unfold pending_count. cbn [invoices].
  replace (List.filter (is_pending_of cid) (map (set_invoice c a (Str "paid") id) l))
    with (@nil invoice); [reflexivity|].
  symmetry. induction l as [|r l IH]; [reflexivity|]. cbn [map List.filter].
  rewrite IH by (intros r' Hr'; apply Hall; now right).
  replace (is_pending_of cid (set_invoice c a (Str "paid") id r)) with false; [reflexivity|].
  symmetry. unfold set_invoice. destruct (inv_id r =? id)%string eqn:E.
  - unfold is_pending_of. cbn [inv_status].
    rewrite (bool_decide_eq_false_2 (Str "paid" = Str "pending")) by discriminate.
    apply andb_false_r.
  - destruct (is_pending_of cid r) eqn:Hp; [|reflexivity].
    apply String.eqb_neq in E. destruct E. apply Hall; [now left | exact Hp].
Qed.

(** X11. If every pending invoice of a customer has the identifier being
    updated, then after a completed [updateInvoice] with status [paid] the
    customer can be deleted: [deleteCustomers] reports success, the
    customer is gone and the invoices all remain. *)
Theorem paying_unblocks_delete sql id prev fd w cid :
  valid_invoice_form fd = true →
  get fd "status" = Str "paid" →
  (∀ r, r ∈ invoices (db w) → is_pending_of cid r = true → inv_id r = id) →
  completes sql ""
    (UPDATE_invoice (get fd "customerId")
       (Num (Number.mul (ToNumber (get fd "amount")) (Number.of_Z 100)))
       (Str "paid") id) (db w) →
  let w1 := (updateInvoice sql id prev fd w).2 in
  completes sql "" (SELECT_pending_count cid) (db w1) →
  completes sql "" (DELETE_customer cid) (db w1) →
  ∃ w2, deleteCustomers sql cid w1 =
          (Return (just_message "Customer deleted successfully."), w2)
        ∧ customer_by_id cid (db w2) = None
        ∧ invoices (db w2) = invoices (db w1).
Proof.
  intros Hv Hs Hall Hupd w1.
  assert (Hw1 : db w1 = {| invoices := map (set_invoice (get fd "customerId")
                               (Num (Number.mul (ToNumber (get fd "amount")) (Number.of_Z 100)))
                               (Str "paid") id) (invoices (db w));
                           customers := customers (db w) |}).
  { subst w1. destruct (valid_invoice_form_inv fd Hv) as (c & s & Hc & Hs' & Hin & Ha).
    destruct (invoice_accepted fd c s Hc Ha Hs' Hin) as (data & Hp & Dc & Da & Ds).
    rewrite updateInvoice_run, (proj2 invoice_shape), Hp.
    unfold write_then_redirect, update_invoice_of. rewrite Dc, Da, Ds, <- Hc, <- Hs', Hs.
    change (times (Num ?x) (Num ?y)) with (Num (Number.mul x y)).
    unfold completes in Hupd. rewrite Hupd. reflexivity. }
  intros Hsel Hdel.
  rewrite (deleteCustomers_proceeds sql cid w1 Hsel); [| |exact Hdel].
  - eexists. split; [reflexivity|]. cbn [db invoices]. split; [|reflexivity].
    unfold customer_by_id. cbn [customers]. apply (find_filter_same cus_id).
  - rewrite Hw1. now apply pending_count_paid.
Qed.

Lemma find_app_absent {A} (p : A → bool) (l l' : list A) :
  List.find p l = None → List.find p (l ++ l') = List.find p l'.
Proof.
  induction l as [|x l IH]; [reflexivity|]. cbn [List.find app].
  destruct (p x); [discriminate | exact IH].
Qed.

(** X12. Round trip: a customer created by [createCustomers] reads back
    with the submitted strings under the identifier the store gave it, and
    [deleteCustomers] on that identifier restores the rows to what they were
    before (given the identifier was unused). *)
Theorem create_then_delete_customer sql prev fd w fresh n e i :
  get fd "name" = Str n → get fd "email" = Str e → get fd "image_url" = Str i →
  customer_by_id fresh (db w) = None →
  pending_count fresh (db w) = 0%N →
  completes sql fresh (INSERT_customer (Str n) (Str e) (Str i)) (db w) →
  let w1 := (createCustomers sql prev fd w).2 in
  completes sql "" (SELECT_pending_count fresh) (db w1) →
  completes sql "" (DELETE_customer fresh) (db w1) →
  customer_by_id fresh (db w1)
  = Some {| cus_id := fresh; cus_name := Str n; cus_email := Str e; cus_image_url := Str i |}
  ∧ ∃ w2, deleteCustomers sql fresh w1 =
            (Return (just_message "Customer deleted successfully."), w2)
          ∧ db w2 = db w.
Proof.
  intros Hn He Hi Hnone H0 Hins w1.
  assert (Hw1 : db w1 = {| invoices := invoices (db w);
                           customers := customers (db w) ++
                             [{| cus_id := fresh; cus_name := Str n; cus_email := Str e;
                                 cus_image_url := Str i |}] |}).
  { subst w1. destruct (customer_accepted fd n e i Hn He Hi) as (data & Hp & Dn & De & Di).
    rewrite createCustomers_run, Hp. unfold write_then_redirect, insert_customer_of.
    rewrite Dn, De, Di. unfold completes in Hins. rewrite Hins. reflexivity. }
  intros Hsel Hdel. unfold customer_by_id in *. split.
  - rewrite Hw1. cbn [customers]. rewrite find_app_absent by exact Hnone. cbn [List.find cus_id].
    now rewrite String.eqb_refl.
  - rewrite (deleteCustomers_proceeds sql fresh w1 Hsel); [| |exact Hdel].
    + eexists. split; [reflexivity|]. cbn [db]. rewrite Hw1. cbn [invoices customers].
      rewrite List.filter_app, (filter_absent cus_id) by exact Hnone.
      cbn [List.filter cus_id]. rewrite String.eqb_refl. cbn [negb].
      rewrite app_nil_r. now destruct (db w).
    + rewrite Hw1. exact H0.
Qed.

(** ** [authenticate] *)

(** X13. [authenticate] never lets an [AuthError] escape, returns nothing
    other than [undefined] or one of its two fixed strings, throws only what
    [signIn] threw, and leaves the world as [signIn] left it. *)
Theorem authenticate_contains_auth_errors
    (signIn : string → FormData → action unit) prev fd w :
  (∀ type m, (authenticate signIn prev fd w).1 ≠ Throw (AuthError type m))
  ∧ (∀ v, (authenticate signIn prev fd w).1 = Return v →
          v = undefined ∨ v = Str "Invalid credentials." ∨ v = Str "Something went wrong.")
  ∧ (∀ e, (authenticate signIn prev fd w).1 = Throw e →
          (signIn "credentials" fd w).1 = Throw e)
  ∧ (authenticate signIn prev fd w).2 = (signIn "credentials" fd w).2.
Proof.
  unfold authenticate, try_catch, mbind, action_bind, mret, action_ret.
  destruct (signIn "credentials" fd w) as [[[]|e] w'] eqn:E; cbn [fst snd].
  - repeat split; try discriminate. intros v [= <-]. now left.
  - destruct e as [m|ty m|u|v]; [| destruct (ty =? "CredentialsSignin")%string | |];
      cbn [fst snd]; repeat split; try discriminate;
      try (intros ? [= <-]; now auto); try (intros ? H; exact H).
Qed.

(** ** What no operation does *)

Lemma relational_run sql (s : statement) (d d' : database) (rows : list row) :
  relational sql → sql s d = fulfilled d' rows → ∃ fresh, d' = (run fresh s d).1.
Proof. intros Hrel E. destruct (Hrel _ _ _ _ E) as [fresh H]. exists fresh. now rewrite <- H. Qed.

(** X14. Whatever the store does, no operation lets an error escape: the
    only thing the four form actions ever throw is the redirect to their own
    listing, and then the listing has been marked stale; the two delete
    actions never throw. *)
Theorem only_redirects_escape sql id prev fd w :
  (∀ e, (createInvoice sql prev fd w).1 = Throw e →
        e = RedirectError "/dashboard/invoices"
        ∧ revalidated (createInvoice sql prev fd w).2
          = (revalidated w ++ ["/dashboard/invoices"])%list)
  ∧ (∀ e, (updateInvoice sql id prev fd w).1 = Throw e →
          e = RedirectError "/dashboard/invoices"
          ∧ revalidated (updateInvoice sql id prev fd w).2
            = (revalidated w ++ ["/dashboard/invoices"])%list)
  ∧ (∀ e, (createCustomers sql prev fd w).1 = Throw e →
          e = RedirectError "/dashboard/customers"
          ∧ revalidated (createCustomers sql prev fd w).2
            = (revalidated w ++ ["/dashboard/customers"])%list)
  ∧ (∀ e, (updateCustomers sql id prev fd w).1 = Throw e →
          e = RedirectError "/dashboard/customers"
          ∧ revalidated (updateCustomers sql id prev fd w).2
            = (revalidated w ++ ["/dashboard/customers"])%list)
  ∧ (∀ e, (deleteInvoice sql id w).1 ≠ Throw e)
  ∧ (∀ e, (deleteCustomers sql id w).1 ≠ Throw e).
Proof.
  rewrite createInvoice_run, updateInvoice_run, createCustomers_run, updateCustomers_run,
    deleteInvoice_run, deleteCustomers_run.
  assert (Hw : ∀ s prefix p e,
             (write_then_redirect sql s prefix p w).1 = Throw e →
             e = RedirectError p
             ∧ revalidated (write_then_redirect sql s prefix p w).2
               = (revalidated w ++ [p])%list).
  { intros s prefix p e. unfold write_then_redirect.
    destruct (sql s (db w)); [|discriminate]. now intros [= <-]. }
  repeat apply conj.
  - destruct (safeParse CreateInvoice _); [apply Hw | discriminate].
  - destruct (safeParse UpdateInvoice _); [apply Hw | discriminate].
  - destruct (safeParse CreateCustomers _); [apply Hw | discriminate].
  - destruct (safeParse UpdateCustomer _); [apply Hw | discriminate].
  - intros e. now destruct (sql _ _).
  - intros e. cbv zeta. destruct (sql (SELECT_pending_count id) (db w)); [|discriminate].
    destruct (gt_num _ _); [discriminate|]. now destruct (sql _ _).
Qed.

Lemma frugal_write_then_redirect sql s prefix p w :
  ∃ new, issued (write_then_redirect sql s prefix p w).2 = (issued w ++ new)%list
         ∧ (length new ≤ 2)%nat ∧ (length (List.filter is_write new) ≤ 1)%nat.
Proof.
  exists [s]. unfold write_then_redirect.
  destruct (sql s (db w)); cbn; destruct (is_write s); cbn; repeat split; lia.
Qed.

Lemma frugal_nothing (w : world) :
  ∃ new, issued w = (issued w ++ new)%list
         ∧ (length new ≤ 2)%nat ∧ (length (List.filter is_write new) ≤ 1)%nat.
Proof. exists []. rewrite app_nil_r. cbn. repeat split; lia. Qed.

(** X15. Whatever the store does, every operation hands it at most two
    statements in one invocation, and at most one of them is a write. *)
Theorem at_most_one_write sql id prev fd :
  frugal (createInvoice sql prev fd)
  ∧ frugal (updateInvoice sql id prev fd)
  ∧ frugal (deleteInvoice sql id)
  ∧ frugal (createCustomers sql prev fd)
  ∧ frugal (updateCustomers sql id prev fd)
  ∧ frugal (deleteCustomers sql id).
Proof.
  repeat apply conj; intros w.
  - rewrite createInvoice_run. destruct (safeParse _ _);
      [apply frugal_write_then_redirect | apply frugal_nothing].
  - rewrite updateInvoice_run. destruct (safeParse _ _);
      [apply frugal_write_then_redirect | apply frugal_nothing].
  - rewrite deleteInvoice_run. exists [DELETE_invoice id].
    destruct (sql _ _); cbn; repeat split; lia.
  - rewrite createCustomers_run. destruct (safeParse _ _);
      [apply frugal_write_then_redirect | apply frugal_nothing].
  - rewrite updateCustomers_run. destruct (safeParse _ _);
      [apply frugal_write_then_redirect | apply frugal_nothing].
  - rewrite deleteCustomers_run. cbv zeta.
    destruct (sql (SELECT_pending_count id) (db w)) as [d rows|e];
      [|exists [SELECT_pending_count id]; cbn; repeat split; lia].
    destruct (gt_num _ _); [exists [SELECT_pending_count id]; cbn; repeat split; lia|].
    exists [SELECT_pending_count id; DELETE_customer id].
    destruct (sql (DELETE_customer id) d); cbn; rewrite <- app_assoc; repeat split; lia.
Qed.

Lemma coherent_write_then_redirect sql s prefix p w :
  (revalidated (write_then_redirect sql s prefix p w).2 = revalidated w
   ∧ db (write_then_redirect sql s prefix p w).2 = db w)
  ∨ revalidated (write_then_redirect sql s prefix p w).2 = (revalidated w ++ [p])%list.
Proof. unfold write_then_redirect. destruct (sql s (db w)); [now right | now left]. Qed.

(** X16. On a store with relational effects, rows never change without
    the listing being marked stale: after each operation either rows and
    cache are both as before, or the operation's own listing (invoices for
    the invoice actions, customers for the customer actions) was
    invalidated. *)
Theorem cache_follows_rows sql id prev fd :
  relational sql →
  coherent "/dashboard/invoices" (createInvoice sql prev fd)
  ∧ coherent "/dashboard/invoices" (updateInvoice sql id prev fd)
  ∧ coherent "/dashboard/invoices" (deleteInvoice sql id)
  ∧ coherent "/dashboard/customers" (createCustomers sql prev fd)
  ∧ coherent "/dashboard/customers" (updateCustomers sql id prev fd)
  ∧ coherent "/dashboard/customers" (deleteCustomers sql id).
Proof.
  intros Hrel. repeat apply conj; intros w.
  - rewrite createInvoice_run. destruct (safeParse _ _);
      [apply coherent_write_then_redirect | now left].
  - rewrite updateInvoice_run. destruct (safeParse _ _);
      [apply coherent_write_then_redirect | now left].
  - rewrite deleteInvoice_run. destruct (sql _ _); [now right | now left].
  - rewrite createCustomers_run. destruct (safeParse _ _);
      [apply coherent_write_then_redirect | now left].
  - rewrite updateCustomers_run. destruct (safeParse _ _);
      [apply coherent_write_then_redirect | now left].
  - rewrite deleteCustomers_run. cbv zeta.
    destruct (sql (SELECT_pending_count id) (db w)) as [d rows|e] eqn:E; [|now left].
    destruct (relational_run sql _ _ _ _ Hrel E) as [fresh ->]. cbn [run fst].
    destruct (gt_num _ _); [now left|].
    destruct (sql (DELETE_customer id) (db w)); [now right | now left].
Qed.

(** X17. On a store with relational effects, the invoice actions never
    change a customer row and the customer actions never change an invoice
    row; in particular deleting a customer deletes none of its invoices. *)
Theorem tables_are_separate sql id prev fd w :
  relational sql →
  customers (db (createInvoice sql prev fd w).2) = customers (db w)
  ∧ customers (db (updateInvoice sql id prev fd w).2) = customers (db w)
  ∧ customers (db (deleteInvoice sql id w).2) = customers (db w)
  ∧ invoices (db (createCustomers sql prev fd w).2) = invoices (db w)
  ∧ invoices (db (updateCustomers sql id prev fd w).2) = invoices (db w)
  ∧ invoices (db (deleteCustomers sql id w).2) = invoices (db w).
Proof.
  intros Hrel.
  rewrite createInvoice_run, updateInvoice_run, createCustomers_run, updateCustomers_run,
    deleteInvoice_run, deleteCustomers_run.
  unfold write_then_redirect, insert_invoice_of, update_invoice_of, insert_customer_of,
    update_customer_of.
  repeat apply conj;
    repeat match goal with
           | |- context [safeParse ?sh ?i] => destruct (safeParse sh i)
           | |- context [sql ?s ?d] =>
               let E := fresh "E" in
               destruct (sql s d) eqn:E;
               [ apply (relational_run sql _ _ _ _ Hrel) in E as [? ->] | ]
           | |- context [gt_num ?a ?b] => destruct (gt_num a b)
           end; reflexivity.
Qed.

(** ** The further properties at the sample inputs *)

Lemma pg_relational (fresh : string) : relational (Sample.pg fresh).
Proof. intros s d d' rows [= <- <-]. exists fresh. now destruct (run fresh s d). Qed.

Lemma sample_rows_sound : Forall (λ r, sound_invoice r = true) (invoices Sample.rows).
Proof. repeat constructor. Qed.

Lemma sample_form_submitted (a b c : string) : submitted (Sample.invoice_form a b c).
Proof. repeat constructor. Qed.

Lemma invoice_errors_exact_witness :
  invoice_messages [] "customerId" = ["Please select a customer."]
  ∧ ∃ st st',
      createInvoice (Sample.pg "i3") Sample.blank [] Sample.w0 = (Return st, Sample.w0)
      ∧ message st = Some "Missing Fields. Failed to Create Invoice."
      ∧ carries st (invoice_messages [])
      ∧ updateInvoice (Sample.pg "i3") "i1" Sample.blank [] Sample.w0 = (Return st', Sample.w0)
      ∧ message st' = Some "Missing Fields. Failed to Update Invoice."
      ∧ carries st' (invoice_messages []).
Proof.
  split; [reflexivity|].
  apply (invoice_errors_exact (Sample.pg "i3") "i1" Sample.blank [] Sample.w0).
  exists "customerId". discriminate.
Defined.

Lemma customer_errors_exact_witness :
  let form := [("name", Str "Eve"); ("image_url", Obj "File")] in
  customer_messages form "email" = ["Expected string, received null"]
  ∧ customer_messages form "image_url" = ["Expected string, received object"]
  ∧ ∃ st st',
      createCustomers (Sample.pg "c3") Sample.blank form Sample.w0 = (Return st, Sample.w0)
      ∧ message st = Some "Missing Fields. Failed to Create Customers."
      ∧ carries st (customer_messages form)
      ∧ updateCustomers (Sample.pg "c3") "c1" Sample.blank form Sample.w0
        = (Return st', Sample.w0)
      ∧ message st' = Some "Missing Fields. Failed to Update customers."
      ∧ carries st' (customer_messages form).
Proof.
  cbv zeta. split; [reflexivity|]. split; [reflexivity|].
  apply (customer_errors_exact (Sample.pg "c3") "c1" Sample.blank
           [("name", Str "Eve"); ("image_url", Obj "File")] Sample.w0).
  exists "email". discriminate.
Defined.

Lemma invoice_store_traffic_witness :
  let form := Sample.invoice_form "c1" "abc" "pending" in
  valid_invoice_form form = false
  ∧ (createInvoice (Sample.pg "i3") Sample.blank form Sample.w0).2 = Sample.w0
  ∧ (updateInvoice (Sample.pg "i3") "i1" Sample.blank form Sample.w0).2 = Sample.w0.
Proof.
  cbv zeta. split; [reflexivity|].
  apply (proj2 (proj2 (invoice_store_traffic (Sample.pg "i3") "i1" Sample.blank
                         (Sample.invoice_form "c1" "abc" "pending") Sample.w0))).
  reflexivity.
Defined.

Lemma invoices_stay_sound_witness :
  let form := Sample.invoice_form "c2" "0.005" "paid" in
  Forall (λ r, sound_invoice r = true)
    (invoices (db (createInvoice (Sample.pg "i3") Sample.blank form Sample.w0).2))
  ∧ Forall (λ r, sound_invoice r = true)
      (invoices (db (updateInvoice (Sample.pg "i3") "i1" Sample.blank form Sample.w0).2)).
Proof.
  cbv zeta.
  destruct (invoices_stay_sound (Sample.pg "i3") "i1" Sample.blank
              (Sample.invoice_form "c2" "0.005" "paid") Sample.w0
              (pg_relational "i3") (sample_form_submitted _ _ _) sample_rows_sound)
    as (H1 & H2 & _).
  exact (conj H1 H2).
Defined.

Lemma deleteInvoice_removes_witness :
  completes (Sample.pg "i3") "" (DELETE_invoice "i1") (db Sample.w0)
  ∧ ∃ w', deleteInvoice (Sample.pg "i3") "i1" Sample.w0
          = (Return (just_message "Deleted Invoice."), w')
        ∧ invoice_by_id "i1" (db w') = None
        ∧ (∀ id', id' ≠ "i1" → invoice_by_id id' (db w') = invoice_by_id id' (db Sample.w0))
        ∧ customers (db w') = customers (db Sample.w0)
        ∧ revalidated w' = (revalidated Sample.w0 ++ ["/dashboard/invoices"])%list
        ∧ (invoice_by_id "i1" (db Sample.w0) = None → db w' = db Sample.w0).
Proof.
  split; [reflexivity|].
  apply (deleteInvoice_removes (Sample.pg "i3") "i1" Sample.w0). reflexivity.
Defined.

Lemma updateInvoice_frame_witness :
  let form := Sample.invoice_form "c2" "12" "paid" in
  valid_invoice_form form = true
  ∧ ∃ w', updateInvoice (Sample.pg "i3") "i9" Sample.blank form Sample.w0
          = (Throw (RedirectError "/dashboard/invoices"), w')
        ∧ (∀ id', id' ≠ "i9" → invoice_by_id id' (db w') = invoice_by_id id' (db Sample.w0))
        ∧ length (invoices (db w')) = length (invoices (db Sample.w0))
        ∧ customers (db w') = customers (db Sample.w0)
        ∧ revalidated w' = (revalidated Sample.w0 ++ ["/dashboard/invoices"])%list
        ∧ (invoice_by_id "i9" (db Sample.w0) = None → db w' = db Sample.w0).
Proof.
  cbv zeta. split; [reflexivity|].
  apply (updateInvoice_frame (Sample.pg "i3") "i9" Sample.blank
           (Sample.invoice_form "c2" "12" "paid") Sample.w0); reflexivity.
Defined.

Lemma updateCustomers_writes_witness :
  let form := Sample.customer_form "Ada L." "ada@example.org" "/customers/ada2.png" in
  ∃ w', updateCustomers (Sample.pg "c3") "c1" Sample.blank form Sample.w0
        = (Throw (RedirectError "/dashboard/customers"), w')
      ∧ customer_by_id "c1" (db w')
        = Some {| cus_id := "c1"; cus_name := Str "Ada L.";
                  cus_email := Str "ada@example.org";
                  cus_image_url := Str "/customers/ada2.png" |}.
Proof.
  cbv zeta.
  destruct (updateCustomers_writes (Sample.pg "c3") "c1" Sample.blank
              (Sample.customer_form "Ada L." "ada@example.org" "/customers/ada2.png")
              Sample.w0 "Ada L." "ada@example.org" "/customers/ada2.png"
              eq_refl eq_refl eq_refl eq_refl) as (w' & Hrun & Hread & _).
  exists w'. split; [exact Hrun|]. exact Hread.
Defined.

Lemma guard_follows_count_cell_witness :
  Sample.pg "i3" (SELECT_pending_count "c1") (db Sample.w0)
  = fulfilled Sample.rows [{[ "count" := Str "1" ]}]
  ∧ primitive (count_cell [{[ "count" := Str "1" ]}]) = true
  ∧ Number.ltb (Number.of_Z 0) (ToNumber (count_cell [{[ "count" := Str "1" ]}])) = true
  ∧ deleteCustomers (Sample.pg "i3") "c1" Sample.w0 =
      (Return (just_message "no se elimino"),
       {| db := Sample.rows; revalidated := [];
          issued := [SELECT_pending_count "c1"]; now := Sample.clock |}).
Proof.
  split; [reflexivity|]. split; [reflexivity|]. split; [reflexivity|].
  apply (proj1 (guard_follows_count_cell (Sample.pg "i3") "c1" Sample.w0 Sample.rows
                  [{[ "count" := Str "1" ]}] eq_refl eq_refl)).
  reflexivity.
Defined.

Lemma deleteCustomers_unknown_id_witness :
  customer_by_id "c9" (db Sample.w0) = None
  ∧ pending_count "c9" (db Sample.w0) = 0%N
  ∧ ∃ w', deleteCustomers (Sample.pg "c3") "c9" Sample.w0 =
            (Return (just_message "Customer deleted successfully."), w')
          ∧ db w' = db Sample.w0
          ∧ revalidated w' = (revalidated Sample.w0 ++ ["/dashboard/customers"])%list.
Proof.
  split; [reflexivity|]. split; [reflexivity|].
  apply (deleteCustomers_unknown_id (Sample.pg "c3") "c9" Sample.w0); reflexivity.
Defined.

Lemma pending_invoice_blocks_delete_witness :
  let form := Sample.invoice_form "c2" "50" "pending" in
  let w1 := (createInvoice (Sample.pg "i3") Sample.blank form Sample.w0).2 in
  pending_count "c2" (db Sample.w0) = 0%N
  ∧ ∃ w2, deleteCustomers (Sample.pg "i3") "c2" w1
          = (Return (just_message "no se elimino"), w2)
        ∧ db w2 = db w1
        ∧ customers (db w2) = customers (db Sample.w0)
        ∧ revalidated w2 = revalidated w1.
Proof.
  cbv zeta. split; [reflexivity|].
  apply (pending_invoice_blocks_delete (Sample.pg "i3") Sample.blank
           (Sample.invoice_form "c2" "50" "pending") Sample.w0 "i3" "c2"); reflexivity.
Defined.

Lemma paying_unblocks_delete_witness :
  let form := Sample.invoice_form "c1" "12" "paid" in
  let w1 := (updateInvoice (Sample.pg "i3") "i1" Sample.blank form Sample.w0).2 in
  pending_count "c1" (db Sample.w0) = 1%N
  ∧ ∃ w2, deleteCustomers (Sample.pg "i3") "c1" w1 =
            (Return (just_message "Customer deleted successfully."), w2)
          ∧ customer_by_id "c1" (db w2) = None
          ∧ invoices (db w2) = invoices (db w1).
Proof.
  cbv zeta. split; [reflexivity|].
  apply (paying_unblocks_delete (Sample.pg "i3") "i1" Sample.blank
           (Sample.invoice_form "c1" "12" "paid") Sample.w0 "c1"); try reflexivity.
  intros r Hr Hp. cbn in Hr. rewrite !elem_of_cons, elem_of_nil in Hr.
  destruct Hr as [->|[->|[]]]; [reflexivity | discriminate Hp].
Defined.

Lemma create_then_delete_customer_witness :
  let form := Sample.customer_form "Eve" "eve@example.com" "/customers/eve.png" in
  let w1 := (createCustomers (Sample.pg "c3") Sample.blank form Sample.w0).2 in
  customer_by_id "c3" (db Sample.w0) = None
  ∧ customer_by_id "c3" (db w1)
    = Some {| cus_id := "c3"; cus_name := Str "Eve"; cus_email := Str "eve@example.com";
              cus_image_url := Str "/customers/eve.png" |}
  ∧ ∃ w2, deleteCustomers (Sample.pg "c3") "c3" w1 =
            (Return (just_message "Customer deleted successfully."), w2)
          ∧ db w2 = db Sample.w0.
Proof.
  cbv zeta. split; [reflexivity|].
  apply (create_then_delete_customer (Sample.pg "c3") Sample.blank
           (Sample.customer_form "Eve" "eve@example.com" "/customers/eve.png")
           Sample.w0 "c3" "Eve" "eve@example.com" "/customers/eve.png"); reflexivity.
Defined.

Lemma authenticate_contains_auth_errors_witness :
  let denied := Sample.provider (Throw (AuthError "AccessDenied" "no")) in
  (authenticate denied undefined [] Sample.w0).1 = Return (Str "Something went wrong.")
  ∧ ∀ type m, (authenticate denied undefined [] Sample.w0).1 ≠ Throw (AuthError type m).
Proof.
  cbv zeta. split; [reflexivity|].
  apply (proj1 (authenticate_contains_auth_errors
                  (Sample.provider (Throw (AuthError "AccessDenied" "no")))
                  undefined [] Sample.w0)).
Defined.

Lemma only_redirects_escape_witness :
  let form := Sample.invoice_form "c1" "50" "pending" in
  (createInvoice (Sample.pg "i3") Sample.blank form Sample.w0).1
  = Throw (RedirectError "/dashboard/invoices")
  ∧ revalidated (createInvoice (Sample.pg "i3") Sample.blank form Sample.w0).2
    = ["/dashboard/invoices"].
Proof.
  cbv zeta. split; [reflexivity|].
  apply (proj1 (only_redirects_escape (Sample.pg "i3") "i1" Sample.blank
                  (Sample.invoice_form "c1" "50" "pending") Sample.w0)
           (RedirectError "/dashboard/invoices")).
  reflexivity.
Defined.

Lemma cache_follows_rows_witness :
  coherent "/dashboard/customers" (deleteCustomers (Sample.pg "c3") "c1").
Proof.
  apply (cache_follows_rows (Sample.pg "c3") "c1" Sample.blank [] (pg_relational "c3")).
Defined.

Lemma tables_are_separate_witness :
  invoices (db (deleteCustomers (Sample.pg "c3") "c2" Sample.w0).2) = invoices Sample.rows
  ∧ customer_by_id "c2" (db (deleteCustomers (Sample.pg "c3") "c2" Sample.w0).2) = None.
Proof.
  split; [|reflexivity].
  apply (tables_are_separate (Sample.pg "c3") "c2" Sample.blank [] Sample.w0
           (pg_relational "c3")).
Defined.
